(** * SonicDub: session orchestrator, AI gateway and WAV container encoder

    A shallow embedding of [src/services/gemini.ts] and of the handlers of
    [src/App.tsx], with the type declarations of [types.ts].

    - JavaScript numbers that hold lengths, sizes and header fields are [Z];
      the [DataView] setters truncate to 8, 16 or 32 bits, and the
      truncation is written out.
    - Byte buffers ([ArrayBuffer], [Uint8Array], [Blob] contents) are
      [list byte]; little-endian fields use coqutil's [le_split] and
      [le_combine].
    - The React state of [App], the browser's object-URL registry, the log
      of requests sent to the remote service and the console are the
      fields of one [World] record, threaded through a state monad with
      exceptions ([M]).
    - Every [await] is answered by an [Env] record: what the browser and
      the remote service return is data of the run, not of the program.
    - A handler runs from its trigger to its end without another trigger
      in between; an execution is a sequence of such runs, each started by
      a control that the rendered page offers in the current state. *)

From Stdlib Require Import ZArith List String Ascii Bool Lia.
From coqutil Require Import Byte Word.LittleEndianList.
Import ListNotations.

Local Open Scope Z_scope.
Local Open Scope string_scope.

(* ================================================================= *)
(** ** JavaScript values *)

(** Values that reach a [catch] block.  The constructors name the [throw]
    site; [External] stands for everything thrown by the platform or by the
    SDK (network and authentication failures, [FileReader] error events,
    [atob], [JSON.parse], [RangeError]), with its [message] property when it
    has one. *)
Inductive JsError : Type :=
| MissingApiKey
| FailedToReadFile
| NoAnalysisResponse
| NoTranslationResponse
| Refused (refusal : string)
| NoAudio (finishReason : string)
| External (msg : option string).

Definition message (e : JsError) : option string :=
  match e with
  | MissingApiKey =>
      Some "API Key not found. Please set REACT_APP_GEMINI_API_KEY or ensure process.env.API_KEY is available."
  | FailedToReadFile => Some "Failed to read file"
  | NoAnalysisResponse => Some "No response from analysis model"
  | NoTranslationResponse => Some "No response from translation model"
  | Refused t => Some ("Model refused or failed to generate audio: " ++ t)
  | NoAudio r => Some ("No audio data generated. Model finish reason: " ++ r ++ ".")
  | External m => m
  end.

Inductive Result (A : Type) : Type :=
| Ok (a : A)
| Throw (e : JsError).
Arguments Ok {A} a.
Arguments Throw {A} e.

(** Truthiness of an optional string: [undefined], [null] and [""] are falsy. *)
Definition truthy (s : option string) : bool :=
  match s with
  | Some EmptyString => false
  | Some _ => true
  | None => false
  end.

(** [a || d] where [a] is an optional string and [d] a string. *)
Definition or_else (a : option string) (d : string) : string :=
  match a with
  | Some (String c s) => String c s
  | _ => d
  end.

(** [Array.prototype.join]: the separator goes before every element but the
    first ([k] is the index of the next element, [R] the text so far). *)
Fixpoint join_from (k : nat) (R : string) (sep : string) (elements : list string)
  : string :=
  match elements with
  | [] => R
  | next :: rest =>
      let R := match k with 0%nat => R | S _ => R ++ sep end in
      join_from (S k) (R ++ next) sep rest
  end.

Definition join (elements : list string) (sep : string) : string :=
  join_from 0 "" sep elements.

(** The one-character string ['\n']. *)
Definition newline : string := String (ascii_of_nat 10) EmptyString.

(* ================================================================= *)
(** ** DataView over a byte buffer *)

Definition ToUint8 (v : Z) : Z := v mod 2 ^ 8.
Definition ToUint16 (v : Z) : Z := v mod 2 ^ 16.
Definition ToUint32 (v : Z) : Z := v mod 2 ^ 32.

(** Writes the bytes [bs] at [offset]; a write that does not fit in
    the buffer is a [RangeError]. *)
Definition setBytes (view : list byte) (offset : nat) (bs : list byte)
  : Result (list byte) :=
  if (offset + List.length bs <=? List.length view)%nat
  then Ok (firstn offset view ++ bs ++ skipn (offset + List.length bs) view)%list
  else Throw (External (Some "Offset is outside the bounds of the DataView")).

Definition setUint8 (view : list byte) (offset : nat) (v : Z) :=
  setBytes view offset [byte.of_Z (ToUint8 v)].

(** [view.setUint16(offset, v, true)] *)
Definition setUint16 (view : list byte) (offset : nat) (v : Z) :=
  setBytes view offset (le_split 2 (ToUint16 v)).

(** [view.setUint32(offset, v, true)] *)
Definition setUint32 (view : list byte) (offset : nat) (v : Z) :=
  setBytes view offset (le_split 4 (ToUint32 v)).

Definition bindR {A B} (r : Result A) (k : A -> Result B) : Result B :=
  match r with
  | Ok a => k a
  | Throw e => Throw e
  end.

Declare Scope result_scope.
Delimit Scope result_scope with result.
Notation "x <- r ;; k" := (bindR r (fun x => k))
  (at level 61, r at next level, right associativity) : result_scope.

Fixpoint writeString (view : list byte) (offset : nat) (s : string)
  : Result (list byte) :=
  match s with
  | EmptyString => Ok view
  | String c rest =>
      (view <- setUint8 view offset (Z.of_nat (nat_of_ascii c)) ;;
       writeString view (S offset) rest)%result
  end.

(** The unsigned little-endian number held in [n] bytes at [offset]. *)
Definition getUintLE (bytes : list byte) (offset n : nat) : Z :=
  le_combine (firstn n (skipn offset bytes)).

(* ================================================================= *)
(** ** The WAV header of [createWavUrl] *)

Definition sampleRate : Z := 24000.
Definition numChannels : Z := 1.
Definition bitsPerSample : Z := 16.

(** [new ArrayBuffer(44)] followed by the thirteen writes of
    [createWavUrl]; [pcmLength] is [pcmData.length]. *)
Definition wavHeader (pcmLength : Z) : Result (list byte) :=
  (let view := repeat Byte.x00 44 in
   view <- writeString view 0 "RIFF" ;;
   view <- setUint32 view 4 (36 + pcmLength) ;;
   view <- writeString view 8 "WAVE" ;;
   view <- writeString view 12 "fmt " ;;
   view <- setUint32 view 16 16 ;;
   view <- setUint16 view 20 1 ;;
   view <- setUint16 view 22 numChannels ;;
   view <- setUint32 view 24 sampleRate ;;
   view <- setUint32 view 28 (sampleRate * numChannels * 2) ;;
   view <- setUint16 view 32 (numChannels * 2) ;;
   view <- setUint16 view 34 bitsPerSample ;;
   view <- writeString view 36 "data" ;;
   view <- setUint32 view 40 pcmLength ;;
   Ok view)%result.

(* ================================================================= *)
(** ** types.ts *)

Inductive AppState : Type :=
| IDLE | ANALYZING | LYRICS_REVIEW | DUBBING | COMPLETE | ERROR.

(** [gender] is typed ['MALE' | 'FEMALE' | 'UNKNOWN'], but the value comes
    out of [JSON.parse] through an unchecked cast: at run time it is a
    string.  [bpm] is passed through to the prompt and never computed with. *)
Record AnalysisResult : Type := {
  language : string;
  genre : string;
  bpm : Z;
  emotion : string;
  gender : string;
  lyrics : list string;
  summary : string
}.

Record TranslatedLine : Type := {
  original : string;
  translated : string
}.

(** What the handlers read of a browser [File]. *)
Record File : Type := {
  name : string;
  size : Z;
  type : string
}.

(** A [Blob]: a user-selected file, or bytes assembled by the program. *)
Inductive Blob : Type :=
| OfFile (f : File)
| OfParts (bytes : list byte) (mime : string).

(** An object URL is an opaque string made by the browser; it is identified
    here with its position in the browser's registry of live object URLs. *)
Definition ObjectURL : Type := nat.

Record SongData : Type := {
  file : option File;
  audioUrl : option ObjectURL;
  analysis : option AnalysisResult;
  translations : list TranslatedLine;
  targetLanguage : string;
  dubbedAudioUrl : option ObjectURL
}.

Definition TARGET_LANGUAGES : list string :=
  ["Spanish"; "French"; "German"; "Japanese"; "Korean"; "Chinese"; "Italian";
   "Portuguese"].

Module VOICES.
Definition MALE : string := "Fenrir".
Definition FEMALE : string := "Kore".
Definition NEUTRAL : string := "Puck".
End VOICES.

(* ================================================================= *)
(** ** The remote service and the browser *)

Inductive Request : Type :=
| AnalyzeRequest (mimeType : string) (data : option string)
| TranslateRequest (lyrics : list string) (targetLanguage originalLanguage : string)
    (bpm : Z)
| SpeechRequest (textToSpeak : string) (voiceName : string)
    (safetySettings : list (string * string)).

Record InlineData : Type := { data : option string }.
Record Part : Type := { text : option string; inlineData : option InlineData }.
Record Content : Type := { parts : option (list Part) }.
Record Candidate : Type := {
  content : option Content;
  finishReason : option string
}.
(** [response_text] is the SDK's [response.text] accessor. *)
Record Response : Type := {
  response_text : option string;
  candidates : option (list Candidate)
}.

(** How a [FileReader] ends: [loadend] with its [result], or an [error]
    event (which reaches the promise before [loadend] does). *)
Inductive ReaderOutcome : Type :=
| LoadEnd (result : option string)
| ErrorEvent.

(** What a call into the platform or the SDK comes back with: a value, or
    an exception of theirs, with its [message] when it has one. *)
Inductive Answer (A : Type) : Type :=
| Returns (a : A)
| Fails (msg : option string).
Arguments Returns {A} a.
Arguments Fails {A} msg.

(** The answers of the environment to one run of a handler.
    [parseAnalysis] and [parseTranslations] are [JSON.parse] followed by the
    cast to the expected type.  The cast is taken at its word: a text that
    parses to a value of another shape, [null] included, has no answer
    here, and no statement below relies on the shape of a parsed value. *)
Record Env : Type := {
  API_KEY : option string;
  readAsDataURL : File -> ReaderOutcome;
  generateContent : Request -> Answer Response;
  atob : string -> Answer (list Z);
  parseAnalysis : string -> Answer AnalysisResult;
  parseTranslations : string -> Answer (list TranslatedLine)
}.

(* ================================================================= *)
(** ** The world: React state of [App], browser registry, logs *)

(** The argument of a [setSongData] call. *)
Inductive SongPatch : Type :=
| PFile (f : File) (url : ObjectURL)
| PAnalysis (a : AnalysisResult)
| PTranslations (t : list TranslatedLine)
| PTargetLanguage (code : string)
| PDubbedAudioUrl (url : ObjectURL)
| PReplace (s : SongData).

Definition applyPatch (p : SongPatch) (prev : SongData) : SongData :=
  match p with
  | PFile f url =>
      {| file := Some f; audioUrl := Some url; analysis := analysis prev;
         translations := translations prev; targetLanguage := targetLanguage prev;
         dubbedAudioUrl := dubbedAudioUrl prev |}
  | PAnalysis a =>
      {| file := file prev; audioUrl := audioUrl prev; analysis := Some a;
         translations := translations prev; targetLanguage := targetLanguage prev;
         dubbedAudioUrl := dubbedAudioUrl prev |}
  | PTranslations t =>
      {| file := file prev; audioUrl := audioUrl prev; analysis := analysis prev;
         translations := t; targetLanguage := targetLanguage prev;
         dubbedAudioUrl := dubbedAudioUrl prev |}
  | PTargetLanguage code =>
      {| file := file prev; audioUrl := audioUrl prev; analysis := analysis prev;
         translations := translations prev; targetLanguage := code;
         dubbedAudioUrl := dubbedAudioUrl prev |}
  | PDubbedAudioUrl url =>
      {| file := file prev; audioUrl := audioUrl prev; analysis := analysis prev;
         translations := translations prev; targetLanguage := targetLanguage prev;
         dubbedAudioUrl := Some url |}
  | PReplace s => s
  end.

(** A call of one of the four state setters of [App]. *)
Inductive Write : Type :=
| WState (s : AppState)
| WSongData (p : SongPatch)
| WError (e : option string)
| WLoading (b : bool).

Inductive ConsoleEntry : Type :=
| ConsoleError (label : string) (e : JsError)
| ConsoleWarn (label : string) (detail : string).

(** [history] lists the setter calls in the order they were made, each with
    the value [state] had when the call was made. *)
Record World : Type := mkWorld {
  state : AppState;
  songData : SongData;
  error : option string;
  isDubbingLoading : bool;
  objectUrls : list Blob;
  calls : list Request;
  console : list ConsoleEntry;
  history : list (AppState * Write)
}.

Definition initialSongData : SongData :=
  {| file := None; audioUrl := None; analysis := None; translations := [];
     targetLanguage := "Spanish"; dubbedAudioUrl := None |}.

Definition initialWorld : World :=
  {| state := IDLE; songData := initialSongData; error := None;
     isDubbingLoading := false; objectUrls := []; calls := []; console := [];
     history := [] |}.

(** State and exceptions. *)
Definition M (A : Type) : Type := World -> Result A * World.

Definition ret {A} (a : A) : M A := fun w => (Ok a, w).
Definition throw {A} (e : JsError) : M A := fun w => (Throw e, w).
Definition bind {A B} (m : M A) (k : A -> M B) : M B :=
  fun w =>
    match m w with
    | (Ok a, w') => k a w'
    | (Throw e, w') => (Throw e, w')
    end.
Definition lift {A} (r : Result A) : M A := fun w => (r, w).

(** The exceptions of the environment reach the program as [External]. *)
Definition received {A} (a : Answer A) : Result A :=
  match a with
  | Returns x => Ok x
  | Fails msg => Throw (External msg)
  end.

Declare Scope m_scope.
Delimit Scope m_scope with M.
Notation "x <- m ;; k" := (bind m (fun x => k))
  (at level 61, m at next level, right associativity) : m_scope.
Notation "m ;; k" := (bind m (fun _ => k))
  (at level 61, right associativity) : m_scope.
Local Open Scope m_scope.

(** [try { body } catch (e) { handler e }] *)
Definition try_catch {A} (body : M A) (handler : JsError -> M A) : M A :=
  fun w =>
    match body w with
    | (Ok a, w') => (Ok a, w')
    | (Throw e, w') => handler e w'
    end.

(** [try { body } finally { fin }]: the outcome of [body] stands unless [fin]
    throws. *)
Definition try_finally {A} (body : M A) (fin : M unit) : M A :=
  fun w =>
    let (r, w') := body w in
    match fin w' with
    | (Ok _, w'') => (r, w'')
    | (Throw e, w'') => (Throw e, w'')
    end.

Definition record (wr : Write) (w : World) : list (AppState * Write) :=
  (history w ++ [(state w, wr)])%list.

Definition setState (s : AppState) : M unit := fun w =>
  (Ok tt,
   {| state := s; songData := songData w; error := error w;
      isDubbingLoading := isDubbingLoading w; objectUrls := objectUrls w;
      calls := calls w; console := console w;
      history := record (WState s) w |}).

Definition setSongData (p : SongPatch) : M unit := fun w =>
  (Ok tt,
   {| state := state w; songData := applyPatch p (songData w); error := error w;
      isDubbingLoading := isDubbingLoading w; objectUrls := objectUrls w;
      calls := calls w; console := console w;
      history := record (WSongData p) w |}).

Definition setError (e : option string) : M unit := fun w =>
  (Ok tt,
   {| state := state w; songData := songData w; error := e;
      isDubbingLoading := isDubbingLoading w; objectUrls := objectUrls w;
      calls := calls w; console := console w;
      history := record (WError e) w |}).

Definition setIsDubbingLoading (b : bool) : M unit := fun w =>
  (Ok tt,
   {| state := state w; songData := songData w; error := error w;
      isDubbingLoading := b; objectUrls := objectUrls w;
      calls := calls w; console := console w;
      history := record (WLoading b) w |}).

(** [URL.createObjectURL]: registers the blob and returns its new URL. *)
Definition createObjectURL (b : Blob) : M ObjectURL := fun w =>
  (Ok (List.length (objectUrls w)),
   {| state := state w; songData := songData w; error := error w;
      isDubbingLoading := isDubbingLoading w;
      objectUrls := (objectUrls w ++ [b])%list;
      calls := calls w; console := console w; history := history w |}).

(** The blob an object URL stands for. *)
Definition resolveObjectURL (w : World) (url : ObjectURL) : option Blob :=
  nth_error (objectUrls w) url.

(** [await ai.models.generateContent(req)]: the request goes out, the
    environment answers. *)
Definition callGenerateContent (env : Env) (req : Request) : M Response := fun w =>
  (received (generateContent env req),
   {| state := state w; songData := songData w; error := error w;
      isDubbingLoading := isDubbingLoading w; objectUrls := objectUrls w;
      calls := (calls w ++ [req])%list; console := console w;
      history := history w |}).

Definition consoleLog (entry : ConsoleEntry) : M unit := fun w =>
  (Ok tt,
   {| state := state w; songData := songData w; error := error w;
      isDubbingLoading := isDubbingLoading w; objectUrls := objectUrls w;
      calls := calls w; console := (console w ++ [entry])%list;
      history := history w |}).

(* ================================================================= *)
(** ** services/gemini.ts *)

(** [s.split(',')]: the pieces of [s] between separators; never empty. *)
Fixpoint split (sep : ascii) (s : string) : list string :=
  match s with
  | EmptyString => [EmptyString]
  | String c rest =>
      if Ascii.eqb c sep then EmptyString :: split sep rest
      else match split sep rest with
           | piece :: pieces => String c piece :: pieces
           | [] => [String c EmptyString]
           end
  end.

Definition getAiClient (env : Env) : M unit :=
  let apiKey := API_KEY env in
  if negb (truthy apiKey) then throw MissingApiKey else ret tt.

(** The promise resolves with [reader.result.split(',')[1]], which is
    [undefined] when the data URL has no comma. *)
Definition fileToGenerativePart (env : Env) (f : File) : M (option string) :=
  match readAsDataURL env f with
  | LoadEnd (Some result) => ret (nth_error (split "," result) 1)
  | LoadEnd None => throw FailedToReadFile
  | ErrorEvent => throw (External None)
  end.

Definition analyzeAudio (env : Env) (audioBase64 : option string) (mimeType : string)
  : M AnalysisResult :=
  getAiClient env ;;
  try_catch
    (response <- callGenerateContent env (AnalyzeRequest mimeType audioBase64) ;;
     let text := response_text response in
     if negb (truthy text) then throw NoAnalysisResponse
     else lift (received (parseAnalysis env (or_else text ""))))
    (fun error => consoleLog (ConsoleError "Analysis failed:" error) ;; throw error).

Definition translateLyrics (env : Env) (lyrics : list string)
  (targetLanguage originalLanguage : string) (bpm : Z) : M (list TranslatedLine) :=
  getAiClient env ;;
  try_catch
    (response <- callGenerateContent env
                   (TranslateRequest lyrics targetLanguage originalLanguage bpm) ;;
     let text := response_text response in
     if negb (truthy text) then throw NoTranslationResponse
     else lift (received (parseTranslations env (or_else text ""))))
    (fun error => consoleLog (ConsoleError "Translation failed:" error) ;; throw error).

(** [new Array(len)] is a [RangeError] when [len] exceeds [2^32 - 1]. *)
Definition newArray (len : Z) : Result unit :=
  if (len <=? 2 ^ 32 - 1)%Z then Ok tt
  else Throw (External (Some "Invalid array length")).

(** [byteCharacters] is the string [atob] returns, as its character codes;
    the loop copies them to [byteNumbers], and [new Uint8Array] keeps each
    one modulo 256. *)
Definition createWavUrl (env : Env) (pcmBase64 : string) : M ObjectURL :=
  byteCharacters <- lift (received (atob env pcmBase64)) ;;
  lift (newArray (Z.of_nat (List.length byteCharacters))) ;;
  let byteNumbers := byteCharacters in
  let pcmData := map (fun n => byte.of_Z (ToUint8 n)) byteNumbers in
  header <- lift (wavHeader (Z.of_nat (List.length pcmData))) ;;
  let blob := OfParts (header ++ pcmData)%list "audio/wav" in
  createObjectURL blob.

(** [o?.f] *)
Definition chain {A B} (o : option A) (f : A -> option B) : option B :=
  match o with
  | Some a => f a
  | None => None
  end.

(** [candidate?.content?.parts?.[0]] *)
Definition firstPart (candidate : option Candidate) : option Part :=
  chain (chain (chain candidate content) parts) (@hd_error Part).

Definition safetySettings : list (string * string) :=
  [("HARM_CATEGORY_HATE_SPEECH", "BLOCK_NONE");
   ("HARM_CATEGORY_SEXUALLY_EXPLICIT", "BLOCK_NONE");
   ("HARM_CATEGORY_HARASSMENT", "BLOCK_NONE");
   ("HARM_CATEGORY_DANGEROUS_CONTENT", "BLOCK_NONE")].

Definition generateDubbedAudio (env : Env) (lines : list TranslatedLine)
  (gender : string) (targetLanguage : string) : M ObjectURL :=
  getAiClient env ;;
  let textToSpeak := join (map translated lines) newline in
  let voiceName := VOICES.NEUTRAL in
  let voiceName := if gender =? "MALE" then VOICES.MALE else voiceName in
  let voiceName := if gender =? "FEMALE" then VOICES.FEMALE else voiceName in
  try_catch
    (response <- callGenerateContent env
                   (SpeechRequest textToSpeak voiceName safetySettings) ;;
     let candidate := chain (candidates response) (@hd_error Candidate) in
     let refusal := chain (firstPart candidate) text in
     (if truthy refusal
      then consoleLog (ConsoleWarn "Model returned text instead of audio:"
                         (or_else refusal ""))
      else ret tt) ;;
     let base64Audio := chain (chain (firstPart candidate) inlineData) data in
     if negb (truthy base64Audio) then
       if truthy refusal then throw (Refused (or_else refusal ""))
       else
         let finishReason := or_else (chain candidate finishReason) "UNKNOWN" in
         throw (NoAudio finishReason)
     else createWavUrl env (or_else base64Audio ""))
    (fun error => consoleLog (ConsoleError "Dubbing failed:" error) ;; throw error).

(* ================================================================= *)
(** ** App.tsx: the handlers *)

(** A handler reads [songData] from the render it was created in: the value
    current when the handler is invoked. *)
Definition readSongData : M SongData := fun w => (Ok (songData w), w).

Definition resetApp : M unit :=
  setState IDLE ;;
  setSongData (PReplace
    {| file := None; audioUrl := None; analysis := None; translations := [];
       targetLanguage := "Spanish"; dubbedAudioUrl := None |}) ;;
  setError None ;;
  setIsDubbingLoading false.

(** [files0] is [event.target.files?.[0]]. *)
Definition handleFileUpload (files0 : option File) : M unit :=
  match files0 with
  | None => ret tt
  | Some file =>
      if (size file >? 10 * 1024 * 1024)%Z then
        setError (Some "File size must be less than 10MB for this demo.")
      else
        url <- createObjectURL (OfFile file) ;;
        setSongData (PFile file url) ;;
        setError None
  end.

Definition startAnalysis (env : Env) : M unit :=
  songData <- readSongData ;;
  match file songData with
  | None => ret tt
  | Some file =>
      setState ANALYZING ;;
      try_catch
        (base64 <- fileToGenerativePart env file ;;
         analysis <- analyzeAudio env base64 (type file) ;;
         setSongData (PAnalysis analysis) ;;
         setState LYRICS_REVIEW)
        (fun err =>
           setError (Some (or_else (message err) "Analysis failed. Please try again.")) ;;
           setState IDLE)
  end.

Definition handleTranslate (env : Env) : M unit :=
  songData <- readSongData ;;
  match analysis songData with
  | None => ret tt
  | Some analysis =>
      setState ANALYZING ;;
      try_catch
        (translations <- translateLyrics env (lyrics analysis)
                           (targetLanguage songData) (language analysis)
                           (bpm analysis) ;;
         setSongData (PTranslations translations) ;;
         setState DUBBING)
        (fun err =>
           setError (Some (or_else (message err) "Translation failed.")) ;;
           setState LYRICS_REVIEW)
  end.

Definition handleDubbing (env : Env) : M unit :=
  songData <- readSongData ;;
  match analysis songData with
  | None => ret tt
  | Some analysis =>
      if (List.length (translations songData) =? 0)%nat then ret tt
      else
        setIsDubbingLoading true ;;
        setError None ;;
        try_finally
          (try_catch
             (audioUrl <- generateDubbedAudio env (translations songData)
                            (gender analysis) (targetLanguage songData) ;;
              setSongData (PDubbedAudioUrl audioUrl) ;;
              setState COMPLETE)
             (fun err =>
                setError (Some (or_else (message err) "Dubbing generation failed."))))
          (setIsDubbingLoading false)
  end.

(** The [onClick] of a target-language button. *)
Definition selectTargetLanguage (code : string) : M unit :=
  setSongData (PTargetLanguage code).

(* ================================================================= *)
(** ** App.tsx: what the rendered page lets the user trigger *)

Inductive Trigger : Type :=
| SelectFile (files0 : option File)
| StartAnalysis
| SelectTargetLanguage (code : string)
| StartTranslation
| StartSynthesis
| Reset.

Definition AppState_eqb (a b : AppState) : bool :=
  match a, b with
  | IDLE, IDLE | ANALYZING, ANALYZING | LYRICS_REVIEW, LYRICS_REVIEW
  | DUBBING, DUBBING | COMPLETE, COMPLETE | ERROR, ERROR => true
  | _, _ => false
  end.

Definition isSome {A} (o : option A) : bool :=
  match o with Some _ => true | None => false end.

(** The condition under which the control that fires the trigger is on the
    page. *)
Definition enabled (w : World) (t : Trigger) : bool :=
  match t with
  | SelectFile _ => AppState_eqb (state w) IDLE
  | StartAnalysis => AppState_eqb (state w) IDLE && isSome (file (songData w))
  | SelectTargetLanguage code =>
      AppState_eqb (state w) LYRICS_REVIEW && isSome (analysis (songData w))
      && existsb (String.eqb code) TARGET_LANGUAGES
  | StartTranslation =>
      AppState_eqb (state w) LYRICS_REVIEW && isSome (analysis (songData w))
  | StartSynthesis => AppState_eqb (state w) DUBBING
  | Reset => negb (AppState_eqb (state w) IDLE)
  end.

Definition handler (env : Env) (t : Trigger) : M unit :=
  match t with
  | SelectFile files0 => handleFileUpload files0
  | StartAnalysis => startAnalysis env
  | SelectTargetLanguage code => selectTargetLanguage code
  | StartTranslation => handleTranslate env
  | StartSynthesis => handleDubbing env
  | Reset => resetApp
  end.

(** One trigger, run until its handler has finished. *)
Definition fire (env : Env) (t : Trigger) (w : World) : World :=
  snd (handler env t w).

(** The worlds of the executions in which every trigger is one the page
    offers and runs to completion before the next one. *)
Inductive reachable : World -> Prop :=
| reachable_init : reachable initialWorld
| reachable_fire : forall w env t,
    reachable w -> enabled w t = true -> reachable (fire env t w).

(** A setter call that stores translated lines: the result of a
    translation, or a whole session value that has some. *)
Definition populatesTranslations (wr : Write) : bool :=
  match wr with
  | WSongData (PTranslations _) => true
  | WSongData (PReplace s) => negb ((List.length (translations s) =? 0)%nat)
  | _ => false
  end.

(** A setter call that stores a dubbed-audio URL. *)
Definition populatesDubbedAudioUrl (wr : Write) : bool :=
  match wr with
  | WSongData (PDubbedAudioUrl _) => true
  | WSongData (PReplace s) => isSome (dubbedAudioUrl s)
  | _ => false
  end.

(* ================================================================= *)
(** ** Sample data *)

Module Sample.
Definition song : File :=
  {| name := "song.mp3"; size := 4 * 1024 * 1024; type := "audio/mpeg" |}.

Definition bigSong : File :=
  {| name := "big.wav"; size := 12 * 1024 * 1024; type := "audio/wav" |}.

Definition result : AnalysisResult :=
  {| language := "English"; genre := "Pop"; bpm := 120; emotion := "Romantic";
     gender := "FEMALE"; lyrics := ["hello"; "world"];
     summary := "A soft vocal." |}.

Definition lines : list TranslatedLine :=
  [ {| original := "hello"; translated := "hola" |};
    {| original := "world"; translated := "mundo" |} ].

Definition audioPart : Part :=
  {| text := None; inlineData := Some {| data := Some "AAAA" |} |}.

Definition refusalPart : Part :=
  {| text := Some "I cannot sing this."; inlineData := None |}.

Definition mixedPart : Part :=
  {| text := Some "Here is the audio."; inlineData := Some {| data := Some "AAAA" |} |}.

(** [atob] on the two base64 texts the samples use. *)
Definition decode (s : string) : Answer (list Z) :=
  if s =? "AAAA" then Returns [0; 0; 0]%Z
  else if s =? "AQID" then Returns [1; 2; 3]%Z
  else Fails (Some "The string to be decoded is not correctly encoded.").

Definition speech (p : Part) : Response :=
  {| response_text := None;
     candidates := Some [ {| content := Some {| parts := Some [p] |};
                             finishReason := Some "STOP" |} ] |}.

(** A service that answers every request; the speech answer is [p]. *)
Definition answering (p : Part) : Env :=
  {| API_KEY := Some "key";
     readAsDataURL := fun _ => LoadEnd (Some "data:audio/mpeg;base64,QUJD");
     generateContent := fun req =>
       match req with
       | SpeechRequest _ _ _ => Returns (speech p)
       | _ => Returns {| response_text := Some "{}"; candidates := None |}
       end;
     atob := decode;
     parseAnalysis := fun _ => Returns result;
     parseTranslations := fun _ => Returns lines |}.

(** A service that is down. *)
Definition failing : Env :=
  {| API_KEY := Some "key";
     readAsDataURL := fun _ => LoadEnd (Some "data:audio/mpeg;base64,QUJD");
     generateContent := fun _ => Fails (Some "503 Service Unavailable");
     atob := decode;
     parseAnalysis := fun _ => Returns result;
     parseTranslations := fun _ => Returns lines |}.
End Sample.

(* ================================================================= *)
(** ** Notions used in the statements *)

(** The 32 header bytes at offsets 8 to 39, which do not depend on the
    payload. *)
Definition fixedFields : list byte :=
  [Byte.x57; Byte.x41; Byte.x56; Byte.x45; Byte.x66; Byte.x6d; Byte.x74; Byte.x20;
   Byte.x10; Byte.x00; Byte.x00; Byte.x00; Byte.x01; Byte.x00; Byte.x01; Byte.x00;
   Byte.xc0; Byte.x5d; Byte.x00; Byte.x00; Byte.x80; Byte.xbb; Byte.x00; Byte.x00;
   Byte.x02; Byte.x00; Byte.x10; Byte.x00; Byte.x64; Byte.x61; Byte.x74; Byte.x61].

(** The bytes [createWavUrl] hands to [new Blob] for the decoded payload
    [byteCharacters]. *)
Definition wavLayout (byteCharacters : list Z) : list byte :=
  let pcmLength := Z.of_nat (List.length byteCharacters) in
  ([Byte.x52; Byte.x49; Byte.x46; Byte.x46]
   ++ le_split 4 (ToUint32 (36 + pcmLength))
   ++ fixedFields
   ++ le_split 4 (ToUint32 pcmLength)
   ++ map (fun n => byte.of_Z (ToUint8 n)) byteCharacters)%list.

(** [m] relates every world to the one it leaves behind by [P]. *)
Definition preserves (P : World -> World -> Prop) {A} (m : M A) : Prop :=
  forall w, P w (snd (m w)).

(** The React state of [App] and the record of its setter calls. *)
Definition sameApp (w w' : World) : Prop :=
  state w' = state w /\ songData w' = songData w /\ error w' = error w
  /\ isDubbingLoading w' = isDubbingLoading w /\ history w' = history w.

(** The log of requests sent to the remote service. *)
Definition sameCalls (w w' : World) : Prop := calls w' = calls w.

(** The texts separated by newlines, as a specification: nothing for no
    line, the text itself for one line, and the first text, a newline and
    the rest otherwise ([String.concat]). *)
Definition utterance (lines : list TranslatedLine) : string :=
  String.concat newline (map translated lines).

(** The voice table of the specification. *)
Definition voiceFor (gender : string) : string :=
  if gender =? "MALE" then VOICES.MALE
  else if gender =? "FEMALE" then VOICES.FEMALE
  else VOICES.NEUTRAL.

(** The request [generateDubbedAudio] sends. *)
Definition speechRequest (lines : list TranslatedLine) (gender : string) : Request :=
  SpeechRequest (utterance lines) (voiceFor gender) safetySettings.

(** What [generateDubbedAudio] does with the answer to its request. *)
Definition speechOutcome (env : Env) (response : Response) : M ObjectURL :=
  let candidate := chain (candidates response) (@hd_error Candidate) in
  let refusal := chain (firstPart candidate) text in
  (if truthy refusal
   then consoleLog (ConsoleWarn "Model returned text instead of audio:"
                      (or_else refusal ""))
   else ret tt) ;;
  let base64Audio := chain (chain (firstPart candidate) inlineData) data in
  if negb (truthy base64Audio) then
    if truthy refusal then throw (Refused (or_else refusal ""))
    else throw (NoAudio (or_else (chain candidate finishReason) "UNKNOWN"))
  else createWavUrl env (or_else base64Audio "").

(** [response.candidates?.[0]?.content?.parts?.[0]] and the two fields
    [generateDubbedAudio] reads of it. *)
Definition firstPartOf (response : Response) : option Part :=
  firstPart (chain (candidates response) (@hd_error Candidate)).

Definition refusalOf (response : Response) : option string :=
  chain (firstPartOf response) text.

Definition base64AudioOf (response : Response) : option string :=
  chain (chain (firstPartOf response) inlineData) data.

(** The two awaited calls of [startAnalysis]. *)
Definition analysisAttempt (env : Env) (f : File) : M AnalysisResult :=
  base64 <- fileToGenerativePart env f ;;
  analyzeAudio env base64 (type f).

(** The session refers to the object URL [url]. *)
Definition holdsUrl (s : SongData) (url : ObjectURL) : Prop :=
  audioUrl s = Some url \/ dubbedAudioUrl s = Some url.

(** A recorded setter call is orderly when it stores translated lines only
    at [ANALYZING] and a dubbed-audio URL only at [DUBBING]. *)
Definition orderly (entry : AppState * Write) : Prop :=
  (populatesTranslations (snd entry) = true -> fst entry = ANALYZING)
  /\ (populatesDubbedAudioUrl (snd entry) = true -> fst entry = DUBBING).

(** ** Sample sessions *)

(** An environment whose [atob] decodes [pcmBase64] to [byteCharacters]
    and rejects every other string. *)
Definition decoding (pcmBase64 : string) (byteCharacters : list Z) : Env :=
  {| API_KEY := Some "key";
     readAsDataURL := fun _ => ErrorEvent;
     generateContent := fun _ => Fails None;
     atob := fun s =>
       if s =? pcmBase64 then Returns byteCharacters
       else Fails (Some "The string to be decoded is not correctly encoded.");
     parseAnalysis := fun _ => Fails None;
     parseTranslations := fun _ => Fails None |}.

(** A session that has been analysed. *)
Definition analysedSession : World :=
  fire (Sample.answering Sample.audioPart) StartAnalysis
    (fire (Sample.answering Sample.audioPart) (SelectFile (Some Sample.song))
       initialWorld).

(** A session that has been analysed and translated. *)
Definition dubbingSession : World :=
  fire (Sample.answering Sample.audioPart) StartTranslation analysedSession.

(* ================================================================= *)
(** ** Notions used in the further properties *)

(** The registry of object URLs. *)
Definition sameUrls (w w' : World) : Prop := objectUrls w' = objectUrls w.

(** The console. *)
Definition sameConsole (w w' : World) : Prop := console w' = console w.

(** The character codes of a string, as bytes. *)
Definition asciiBytes (s : string) : list byte :=
  map (fun c => byte.of_Z (Z.of_nat (nat_of_ascii c))) (list_ascii_of_string s).

(** [s] has no comma. *)
Fixpoint noComma (s : string) : bool :=
  match s with
  | EmptyString => true
  | String c rest => negb (Ascii.eqb c ",") && noComma rest
  end.

(** The request [analyzeAudio] sends. *)
Definition analyzeRequest (audioBase64 : option string) (mimeType : string) : Request :=
  AnalyzeRequest mimeType audioBase64.

(** The part of [startAnalysis] that runs once its awaited calls have
    settled with [outcome]. *)
Definition startAnalysis_settle (outcome : Result AnalysisResult) : M unit :=
  match outcome with
  | Ok a => setSongData (PAnalysis a) ;; setState LYRICS_REVIEW
  | Throw err =>
      setError (Some (or_else (message err) "Analysis failed. Please try again.")) ;;
      setState IDLE
  end.

(** The part of [handleTranslate] that runs once [translateLyrics] has
    settled. *)
Definition handleTranslate_settle (outcome : Result (list TranslatedLine)) : M unit :=
  match outcome with
  | Ok t => setSongData (PTranslations t) ;; setState DUBBING
  | Throw err =>
      setError (Some (or_else (message err) "Translation failed.")) ;;
      setState LYRICS_REVIEW
  end.

(** The part of [handleDubbing] that runs once [generateDubbedAudio] has
    settled, its [finally] block included. *)
Definition handleDubbing_settle (outcome : Result ObjectURL) : M unit :=
  match outcome with
  | Ok audioUrl =>
      setSongData (PDubbedAudioUrl audioUrl) ;; setState COMPLETE ;;
      setIsDubbingLoading false
  | Throw err =>
      setError (Some (or_else (message err) "Dubbing generation failed.")) ;;
      setIsDubbingLoading false
  end.

(** The session holds an object URL exactly when it holds a file, and the
    URL stands for that file. *)
Definition fileRegistered (w : World) : Prop :=
  match file (songData w), audioUrl (songData w) with
  | None, None => True
  | Some f, Some url => resolveObjectURL w url = Some (OfFile f)
  | _, _ => False
  end.

(** What holds of the session between two triggers, state by state.
    Nothing is said of [analysis] in [LYRICS_REVIEW]: the handler stores
    there whatever parsing the answer gave. *)
Definition settled (w : World) : Prop :=
  isDubbingLoading w = false
  /\ fileRegistered w
  /\ match state w with
     | IDLE =>
         analysis (songData w) = None /\ translations (songData w) = []
         /\ dubbedAudioUrl (songData w) = None
     | LYRICS_REVIEW =>
         isSome (file (songData w)) = true
         /\ translations (songData w) = [] /\ dubbedAudioUrl (songData w) = None
     | DUBBING =>
         isSome (file (songData w)) = true /\ isSome (analysis (songData w)) = true
         /\ dubbedAudioUrl (songData w) = None
     | COMPLETE =>
         isSome (file (songData w)) = true /\ isSome (analysis (songData w)) = true
         /\ translations (songData w) <> []
         /\ exists url byteCharacters,
              dubbedAudioUrl (songData w) = Some url
              /\ resolveObjectURL w url
                 = Some (OfParts (wavLayout byteCharacters) "audio/wav")
     | ANALYZING | ERROR => False
     end.

(** [l] begins with [l0]. *)
Definition extends {A} (l0 l : list A) : Prop := exists more, l = (l0 ++ more)%list.

(** The outcome of [analyzeAudio] read off the answer of the service. *)
Definition analysisOutcome (env : Env) (req : Request) : Result AnalysisResult :=
  match generateContent env req with
  | Fails msg => Throw (External msg)
  | Returns response =>
      if truthy (response_text response)
      then received (parseAnalysis env (or_else (response_text response) ""))
      else Throw NoAnalysisResponse
  end.

(** The outcome of [translateLyrics] read off the answer of the service. *)
Definition translationOutcome (env : Env) (req : Request)
  : Result (list TranslatedLine) :=
  match generateContent env req with
  | Fails msg => Throw (External msg)
  | Returns response =>
      if truthy (response_text response)
      then received (parseTranslations env (or_else (response_text response) ""))
      else Throw NoTranslationResponse
  end.

(** The world [speechOutcome] works in once it has looked at the text of
    the answer. *)
Definition warned (response : Response) (w : World) : World :=
  if truthy (refusalOf response)
  then snd (consoleLog (ConsoleWarn "Model returned text instead of audio:"
                          (or_else (refusalOf response) "")) w)
  else w.

(** The first candidate's finish reason, or ["UNKNOWN"]. *)
Definition finishReasonOf (response : Response) : string :=
  or_else (chain (chain (candidates response) (@hd_error Candidate)) finishReason)
    "UNKNOWN".

(** A sequence of triggers, each with the answers of its environment, run
    one after the other. *)
Definition fireAll (steps : list (Env * Trigger)) (w : World) : World :=
  fold_left (fun w step => fire (fst step) (snd step) w) steps w.

(** An environment with no credential. *)
Definition unconfigured : Env :=
  {| API_KEY := None;
     readAsDataURL := fun _ => LoadEnd (Some "data:audio/mpeg;base64,QUJD");
     generateContent := fun _ => Returns {| response_text := Some "{}"; candidates := None |};
     atob := Sample.decode;
     parseAnalysis := fun _ => Returns Sample.result;
     parseTranslations := fun _ => Returns Sample.lines |}.

(** An answer with no candidate at all. *)
Definition emptyAnswer : Response := {| response_text := None; candidates := Some [] |}.

(** A service whose speech answer is [response]. *)
Definition speaking (response : Response) : Env :=
  {| API_KEY := Some "key";
     readAsDataURL := fun _ => ErrorEvent;
     generateContent := fun _ => Returns response;
     atob := Sample.decode;
     parseAnalysis := fun _ => Fails None;
     parseTranslations := fun _ => Fails None |}.

(** A file of exactly 10 MiB. *)
Definition limitSong : File :=
  {| name := "limit.wav"; size := 10485760; type := "audio/wav" |}.

(** A session that has been dubbed. *)
Definition completeSession : World :=
  fire (Sample.answering Sample.audioPart) StartSynthesis dubbingSession.

(** A service whose translation is the empty list. *)
Definition translatingToNothing : Env :=
  {| API_KEY := Some "key";
     readAsDataURL := fun _ => LoadEnd (Some "data:audio/mpeg;base64,QUJD");
     generateContent := fun _ => Returns {| response_text := Some "[]"; candidates := None |};
     atob := Sample.decode;
     parseAnalysis := fun _ => Returns Sample.result;
     parseTranslations := fun _ => Returns [] |}.

(** The session after an empty translation. *)
Definition emptyDubbingSession : World :=
  fire translatingToNothing StartTranslation analysedSession.

(* ================================================================= *)
(** * Properties *)

(** ** The container encoder *)

Lemma wavHeader_layout (pcmLength : Z) :
  wavHeader pcmLength =
  Ok ([Byte.x52; Byte.x49; Byte.x46; Byte.x46]
      ++ le_split 4 (ToUint32 (36 + pcmLength))
      ++ fixedFields
      ++ le_split 4 (ToUint32 pcmLength))%list.
Proof. reflexivity. Qed.

Lemma ToUint32_idem (v : Z) : ToUint32 v mod 2 ^ (Z.of_nat 4 * 8) = ToUint32 v.
Proof.
  unfold ToUint32. change (2 ^ (Z.of_nat 4 * 8)) with (2 ^ 32).
  apply Z.mod_mod. discriminate.
Qed.

Lemma wavLayout_length (byteCharacters : list Z) :
  Z.of_nat (List.length (wavLayout byteCharacters))
  = 44 + Z.of_nat (List.length byteCharacters).
Proof.
  unfold wavLayout.
  rewrite !length_app, !length_le_split, length_map.
  change (List.length fixedFields) with 32%nat.
  change (List.length [Byte.x52; Byte.x49; Byte.x46; Byte.x46]) with 4%nat.
  lia.
Qed.

Lemma wavLayout_riffSize (byteCharacters : list Z) :
  getUintLE (wavLayout byteCharacters) 4 4
  = ToUint32 (36 + Z.of_nat (List.length byteCharacters)).
Proof.
  unfold getUintLE, wavLayout.
  change (firstn 4 (skipn 4 _))
    with (le_split 4 (ToUint32 (36 + Z.of_nat (List.length byteCharacters)))).
  rewrite le_combine_split. apply ToUint32_idem.
Qed.

Lemma wavLayout_dataSize (byteCharacters : list Z) :
  getUintLE (wavLayout byteCharacters) 40 4
  = ToUint32 (Z.of_nat (List.length byteCharacters)).
Proof.
  unfold getUintLE, wavLayout.
  change (firstn 4 (skipn 40 _))
    with (le_split 4 (ToUint32 (Z.of_nat (List.length byteCharacters)))).
  rewrite le_combine_split. apply ToUint32_idem.
Qed.

Lemma wavLayout_format (byteCharacters : list Z) :
  getUintLE (wavLayout byteCharacters) 24 4 = 24000
  /\ getUintLE (wavLayout byteCharacters) 32 2 = 2
  /\ getUintLE (wavLayout byteCharacters) 34 2 = 16.
Proof. repeat split. Qed.

Lemma wavLayout_payload (byteCharacters : list Z) :
  skipn 44 (wavLayout byteCharacters)
  = map (fun n => byte.of_Z (ToUint8 n)) byteCharacters.
Proof. reflexivity. Qed.

(** [createWavUrl] on a payload that decodes and fits in an array: one new
    object URL, for a blob of type [audio/wav] holding [wavLayout]. *)
Lemma createWavUrl_run (env : Env) (pcmBase64 : string) (byteCharacters : list Z)
  (w : World) :
  atob env pcmBase64 = Returns byteCharacters ->
  Z.of_nat (List.length byteCharacters) <= 2 ^ 32 - 1 ->
  createWavUrl env pcmBase64 w
  = createObjectURL (OfParts (wavLayout byteCharacters) "audio/wav") w.
Proof.
  intros Hatob Hlen.
  unfold createWavUrl, bind, lift. rewrite Hatob. cbn [received].
  unfold newArray.
  destruct (Z.leb_spec (Z.of_nat (List.length byteCharacters)) (2 ^ 32 - 1)) as [_|Hgt];
    [|lia].
  rewrite wavHeader_layout, length_map. unfold wavLayout.
  rewrite <- !app_assoc. reflexivity.
Qed.

Lemma resolve_createObjectURL (b : Blob) (w : World) :
  resolveObjectURL (snd (createObjectURL b w)) (List.length (objectUrls w)) = Some b.
Proof.
  unfold resolveObjectURL, createObjectURL. cbn [snd objectUrls].
  rewrite nth_error_app2 by lia. rewrite Nat.sub_diag. reflexivity.
Qed.

(** ** Frames: what a computation leaves alone *)

Section Preserves.
Variable P : World -> World -> Prop.
Hypothesis P_refl : forall w, P w w.
Hypothesis P_trans : forall w1 w2 w3, P w1 w2 -> P w2 w3 -> P w1 w3.

Lemma preserves_ret {A} (a : A) : preserves P (ret a).
Proof. intro w. apply P_refl. Qed.

Lemma preserves_throw {A} (e : JsError) : preserves P (@throw A e).
Proof. intro w. apply P_refl. Qed.

Lemma preserves_lift {A} (r : Result A) : preserves P (lift r).
Proof. intro w. apply P_refl. Qed.

Lemma preserves_bind {A B} (m : M A) (k : A -> M B) :
  preserves P m -> (forall a, preserves P (k a)) -> preserves P (bind m k).
Proof.
  intros Hm Hk w. unfold bind. specialize (Hm w).
  destruct (m w) as [[a|e] w']; cbn [snd] in *.
  - eapply P_trans; [exact Hm | apply Hk].
  - exact Hm.
Qed.

Lemma preserves_try_catch {A} (body : M A) (h : JsError -> M A) :
  preserves P body -> (forall e, preserves P (h e)) -> preserves P (try_catch body h).
Proof.
  intros Hb Hh w. unfold try_catch. specialize (Hb w).
  destruct (body w) as [[a|e] w']; cbn [snd] in *.
  - exact Hb.
  - eapply P_trans; [exact Hb | apply Hh].
Qed.

Lemma preserves_if {A} (b : bool) (m1 m2 : M A) :
  preserves P m1 -> preserves P m2 -> preserves P (if b then m1 else m2).
Proof. destruct b; auto. Qed.
End Preserves.

Lemma sameApp_refl w : sameApp w w.
Proof. repeat split. Qed.

Lemma sameApp_trans w1 w2 w3 : sameApp w1 w2 -> sameApp w2 w3 -> sameApp w1 w3.
Proof. unfold sameApp. intuition congruence. Qed.

Lemma sameCalls_refl w : sameCalls w w.
Proof. reflexivity. Qed.

Lemma sameCalls_trans w1 w2 w3 : sameCalls w1 w2 -> sameCalls w2 w3 -> sameCalls w1 w3.
Proof. unfold sameCalls. congruence. Qed.

Create HintDb frame.
#[local] Hint Resolve sameApp_refl sameCalls_refl : frame.

Lemma callGenerateContent_app env req : preserves sameApp (callGenerateContent env req).
Proof. intro w. repeat split. Qed.

Lemma consoleLog_app entry : preserves sameApp (consoleLog entry).
Proof. intro w. repeat split. Qed.

Lemma createObjectURL_app b : preserves sameApp (createObjectURL b).
Proof. intro w. repeat split. Qed.

Lemma consoleLog_calls entry : preserves sameCalls (consoleLog entry).
Proof. intro w. reflexivity. Qed.

Lemma createObjectURL_calls b : preserves sameCalls (createObjectURL b).
Proof. intro w. reflexivity. Qed.

#[local] Hint Resolve callGenerateContent_app consoleLog_app createObjectURL_app
  consoleLog_calls createObjectURL_calls : frame.

Ltac frame :=
  repeat lazymatch goal with
    | |- forall _, _ => intro; cbv beta zeta
    | |- preserves _ (bind _ _) => apply preserves_bind
    | |- preserves _ (try_catch _ _) => apply preserves_try_catch
    | |- preserves _ (if _ then _ else _) => apply preserves_if
    | |- preserves _ (ret _) => apply preserves_ret
    | |- preserves _ (throw _) => apply preserves_throw
    | |- preserves _ (lift _) => apply preserves_lift
    | |- preserves _ (let _ := _ in _) => cbv zeta
    | |- sameApp ?a ?b => solve [eauto 3 using sameApp_trans with frame]
    | |- sameCalls ?a ?b => solve [eauto 3 using sameCalls_trans with frame]
    | |- _ => solve [auto 2 with frame]
    end.

Lemma getAiClient_app env : preserves sameApp (getAiClient env).
Proof. unfold getAiClient. frame. Qed.

Lemma getAiClient_calls env : preserves sameCalls (getAiClient env).
Proof. unfold getAiClient. frame. Qed.

Lemma fileToGenerativePart_app env f : preserves sameApp (fileToGenerativePart env f).
Proof. unfold fileToGenerativePart. destruct (readAsDataURL env f) as [[r|]|]; frame. Qed.

Lemma fileToGenerativePart_calls env f : preserves sameCalls (fileToGenerativePart env f).
Proof. unfold fileToGenerativePart. destruct (readAsDataURL env f) as [[r|]|]; frame. Qed.

Lemma createWavUrl_app env pcmBase64 : preserves sameApp (createWavUrl env pcmBase64).
Proof. unfold createWavUrl. frame. Qed.

Lemma createWavUrl_calls env pcmBase64 : preserves sameCalls (createWavUrl env pcmBase64).
Proof. unfold createWavUrl. frame. Qed.

#[local] Hint Resolve getAiClient_app getAiClient_calls fileToGenerativePart_app
  fileToGenerativePart_calls createWavUrl_app createWavUrl_calls : frame.

Lemma analyzeAudio_app env b64 mime : preserves sameApp (analyzeAudio env b64 mime).
Proof. unfold analyzeAudio. frame. Qed.

Lemma translateLyrics_app env l t o b : preserves sameApp (translateLyrics env l t o b).
Proof. unfold translateLyrics. frame. Qed.

Lemma generateDubbedAudio_app env l g t : preserves sameApp (generateDubbedAudio env l g t).
Proof. unfold generateDubbedAudio. frame. Qed.

#[local] Hint Resolve analyzeAudio_app translateLyrics_app generateDubbedAudio_app : frame.

(** ** The speech request *)

Lemma append_assoc (a b c : string) : (a ++ b) ++ c = a ++ (b ++ c).
Proof. induction a as [|x a IH]; cbn; [reflexivity | now rewrite IH]. Qed.

Lemma join_from_concat (k : nat) (R sep : string) (next : string) (rest : list string) :
  join_from k R sep (next :: rest)
  = (match k with 0%nat => R | S _ => R ++ sep end) ++ String.concat sep (next :: rest).
Proof.
  revert k R next. induction rest as [|x rest IH]; intros k R next.
  - cbn. reflexivity.
  - change (join_from k R sep (next :: x :: rest))
      with (join_from (S k)
              ((match k with 0%nat => R | S _ => R ++ sep end) ++ next) sep (x :: rest)).
    rewrite IH.
    change (String.concat sep (next :: x :: rest))
      with (next ++ sep ++ String.concat sep (x :: rest)).
    rewrite !append_assoc. reflexivity.
Qed.

Lemma join_concat (elements : list string) (sep : string) :
  join elements sep = String.concat sep elements.
Proof.
  unfold join. destruct elements as [|next rest]; [reflexivity|].
  rewrite join_from_concat. reflexivity.
Qed.

Lemma voiceName_voiceFor (gender : string) :
  (let voiceName := VOICES.NEUTRAL in
   let voiceName := if gender =? "MALE" then VOICES.MALE else voiceName in
   let voiceName := if gender =? "FEMALE" then VOICES.FEMALE else voiceName in
   voiceName) = voiceFor gender.
Proof.
  unfold voiceFor. cbv zeta.
  destruct (String.eqb_spec gender "MALE") as [->|]; reflexivity.
Qed.

Lemma generateDubbedAudio_unfold env lines gender targetLanguage :
  generateDubbedAudio env lines gender targetLanguage
  = (getAiClient env ;;
     try_catch
       (response <- callGenerateContent env (speechRequest lines gender) ;;
        speechOutcome env response)
       (fun error => consoleLog (ConsoleError "Dubbing failed:" error) ;; throw error)).
Proof.
  unfold generateDubbedAudio, speechRequest, utterance, speechOutcome.
  cbv zeta. rewrite join_concat.
  pose proof (voiceName_voiceFor gender) as Hv. cbv zeta in Hv. rewrite Hv.
  reflexivity.
Qed.

(** ** The speech gateway, case by case *)

Lemma truthy_nonempty (t : string) : t <> "" -> truthy (Some t) = true.
Proof. destruct t; [congruence | reflexivity]. Qed.

Lemma truthy_inv (o : option string) :
  truthy o = true -> exists t, o = Some t /\ t <> "" /\ forall d, or_else o d = t.
Proof.
  destruct o as [[|c t]|]; cbn; try discriminate.
  intros _. exists (String c t). repeat split. discriminate.
Qed.

Lemma getAiClient_configured env w :
  truthy (API_KEY env) = true -> getAiClient env w = (Ok tt, w).
Proof. intros H. unfold getAiClient. rewrite H. reflexivity. Qed.

(** A [catch] block that logs and rethrows keeps the outcome. *)
Lemma rethrow_outcome {A} (body : M A) (label : string) (w : World) :
  fst (try_catch body
         (fun error => consoleLog (ConsoleError label error) ;; throw error) w)
  = fst (body w).
Proof. unfold try_catch. destruct (body w) as [[a|e] w']; reflexivity. Qed.

Lemma rethrow_ok {A} (body : M A) (label : string) (w w' : World) (a : A) :
  body w = (Ok a, w') ->
  try_catch body
    (fun error => consoleLog (ConsoleError label error) ;; throw error) w
  = (Ok a, w').
Proof. intros H. unfold try_catch. rewrite H. reflexivity. Qed.

Lemma createWavUrl_throws env pcmBase64 w e :
  fst (createWavUrl env pcmBase64 w) = Throw e -> exists msg, e = External msg.
Proof.
  unfold createWavUrl, bind, lift, newArray.
  destruct (atob env pcmBase64) as [chars|msg]; cbn [received].
  - destruct (Z.of_nat (List.length chars) <=? 2 ^ 32 - 1)%Z.
    + rewrite wavHeader_layout. cbn. discriminate.
    + cbn. intros [= <-]. eauto.
  - cbn. intros [= <-]. eauto.
Qed.

Lemma speechOutcome_calls env response : preserves sameCalls (speechOutcome env response).
Proof. unfold speechOutcome. frame. Qed.

Lemma speechOutcome_refused env response w t :
  refusalOf response = Some t -> t <> "" ->
  truthy (base64AudioOf response) = false ->
  fst (speechOutcome env response w) = Throw (Refused t).
Proof.
  intros Ht Hne Hno. unfold speechOutcome. cbv zeta.
  fold (firstPartOf response). fold (refusalOf response).
  fold (base64AudioOf response).
  rewrite Ht, Hno, (truthy_nonempty t Hne). unfold bind. cbn.
  destruct t; [congruence | reflexivity].
Qed.

Lemma speechOutcome_audio env response w d :
  base64AudioOf response = Some d -> d <> "" ->
  fst (speechOutcome env response w)
  = fst (createWavUrl env d
           (snd ((if truthy (refusalOf response)
                  then consoleLog (ConsoleWarn "Model returned text instead of audio:"
                                     (or_else (refusalOf response) ""))
                  else ret tt) w)))
  /\ snd (speechOutcome env response w)
  = snd (createWavUrl env d
           (snd ((if truthy (refusalOf response)
                  then consoleLog (ConsoleWarn "Model returned text instead of audio:"
                                     (or_else (refusalOf response) ""))
                  else ret tt) w))).
Proof.
  intros Hd Hne. unfold speechOutcome. cbv zeta.
  fold (firstPartOf response). fold (refusalOf response).
  fold (base64AudioOf response).
  rewrite Hd, (truthy_nonempty d Hne). cbn [negb].
  assert (Hor : or_else (Some d) "" = d) by (destruct d; [congruence | reflexivity]).
  rewrite Hor. unfold bind.
  destruct (truthy (refusalOf response)); cbv beta iota delta [consoleLog ret];
    split; reflexivity.
Qed.

(** Only a response without audio makes [speechOutcome] throw [Refused]. *)
Lemma speechOutcome_refused_inv env response w t :
  fst (speechOutcome env response w) = Throw (Refused t) ->
  truthy (base64AudioOf response) = false /\ refusalOf response = Some t /\ t <> "".
Proof.
  unfold speechOutcome. cbv zeta.
  fold (firstPartOf response). fold (refusalOf response).
  fold (base64AudioOf response).
  unfold bind.
  destruct (truthy (base64AudioOf response)) eqn:Ha; cbn [negb].
  - destruct (truthy (refusalOf response));
      cbv beta iota delta [consoleLog ret]; intros H;
      apply createWavUrl_throws in H; destruct H as [msg H]; discriminate.
  - destruct (truthy (refusalOf response)) eqn:Ht; cbn.
    + destruct (truthy_inv _ Ht) as (t' & Heq & Hne & Hor).
      rewrite (Hor ""). intros [= <-]. auto.
    + discriminate.
Qed.

Lemma generateDubbedAudio_answered env lines gender targetLanguage w response :
  truthy (API_KEY env) = true ->
  generateContent env (speechRequest lines gender) = Returns response ->
  generateDubbedAudio env lines gender targetLanguage w
  = try_catch (speechOutcome env response)
      (fun error => consoleLog (ConsoleError "Dubbing failed:" error) ;; throw error)
      (snd (callGenerateContent env (speechRequest lines gender) w)).
Proof.
  intros Hkey Hresp. rewrite generateDubbedAudio_unfold.
  unfold bind at 1. rewrite (getAiClient_configured _ _ Hkey).
  unfold try_catch, bind, callGenerateContent. rewrite Hresp. reflexivity.
Qed.

Lemma generateDubbedAudio_refused_inv env lines gender targetLanguage w t :
  fst (generateDubbedAudio env lines gender targetLanguage w) = Throw (Refused t) ->
  exists response,
    generateContent env (speechRequest lines gender) = Returns response
    /\ truthy (base64AudioOf response) = false
    /\ refusalOf response = Some t /\ t <> "".
Proof.
  rewrite generateDubbedAudio_unfold. unfold bind at 1, getAiClient.
  destruct (truthy (API_KEY env)); cbn [negb]; [|discriminate].
  cbn. rewrite rethrow_outcome. unfold bind, callGenerateContent.
  destruct (generateContent env (speechRequest lines gender)) as [response|msg];
    cbn [received]; [|discriminate].
  intros H. exists response. split; [reflexivity|].
  eapply speechOutcome_refused_inv. exact H.
Qed.

(** ** The handlers, up to the outcome of their gateway call *)

Lemma analysisAttempt_app env f : preserves sameApp (analysisAttempt env f).
Proof. unfold analysisAttempt. frame. Qed.

Lemma startAnalysis_run env w f :
  file (songData w) = Some f ->
  startAnalysis env w
  = let r := analysisAttempt env f (snd (setState ANALYZING w)) in
    match fst r with
    | Ok a => (setSongData (PAnalysis a) ;; setState LYRICS_REVIEW) (snd r)
    | Throw err =>
        (setError (Some (or_else (message err) "Analysis failed. Please try again.")) ;;
         setState IDLE) (snd r)
    end.
Proof.
  intros Hf. unfold startAnalysis, readSongData, analysisAttempt, try_catch, bind.
  rewrite Hf. cbv zeta. cbn [setState fst snd].
  destruct (fileToGenerativePart env f _) as [[b64|e] w2]; [|reflexivity].
  destruct (analyzeAudio env b64 (type f) w2) as [[a|e] w3]; reflexivity.
Qed.

Lemma handleTranslate_run env w a :
  analysis (songData w) = Some a ->
  handleTranslate env w
  = let r := translateLyrics env (lyrics a) (targetLanguage (songData w))
               (language a) (bpm a) (snd (setState ANALYZING w)) in
    match fst r with
    | Ok t => (setSongData (PTranslations t) ;; setState DUBBING) (snd r)
    | Throw err =>
        (setError (Some (or_else (message err) "Translation failed.")) ;;
         setState LYRICS_REVIEW) (snd r)
    end.
Proof.
  intros Ha. unfold handleTranslate, readSongData, try_catch, bind.
  rewrite Ha. cbv zeta. cbn [setState fst snd].
  destruct (translateLyrics env _ _ _ _ _) as [[t|e] w2]; reflexivity.
Qed.

Lemma handleDubbing_run env w a :
  analysis (songData w) = Some a ->
  translations (songData w) <> [] ->
  handleDubbing env w
  = let r := generateDubbedAudio env (translations (songData w)) (gender a)
               (targetLanguage (songData w))
               (snd ((setIsDubbingLoading true ;; setError None) w)) in
    match fst r with
    | Ok audioUrl =>
        (setSongData (PDubbedAudioUrl audioUrl) ;; setState COMPLETE ;;
         setIsDubbingLoading false) (snd r)
    | Throw err =>
        (setError (Some (or_else (message err) "Dubbing generation failed.")) ;;
         setIsDubbingLoading false) (snd r)
    end.
Proof.
  intros Ha Ht. unfold handleDubbing, readSongData, try_finally, try_catch, bind.
  rewrite Ha.
  destruct (translations (songData w)) as [|l ls] eqn:Hl; [congruence|].
  cbn [List.length Nat.eqb]. cbv zeta. cbn [setIsDubbingLoading setError fst snd].
  destruct (generateDubbedAudio env _ _ _ _) as [[u|e] w2]; reflexivity.
Qed.

Lemma startAnalysis_noop env w :
  file (songData w) = None -> startAnalysis env w = (Ok tt, w).
Proof. intros H. unfold startAnalysis, readSongData, bind. rewrite H. reflexivity. Qed.

Lemma handleTranslate_noop env w :
  analysis (songData w) = None -> handleTranslate env w = (Ok tt, w).
Proof. intros H. unfold handleTranslate, readSongData, bind. rewrite H. reflexivity. Qed.

Lemma handleDubbing_noop env w :
  analysis (songData w) = None \/ translations (songData w) = [] ->
  handleDubbing env w = (Ok tt, w).
Proof.
  intros H. unfold handleDubbing, readSongData. unfold bind at 1.
  destruct (analysis (songData w)) as [a|]; [|reflexivity].
  destruct H as [H|H]; [discriminate|]. rewrite H. reflexivity.
Qed.

(* ================================================================= *)
(** * The claims *)

(** ** C1: the container encoder *)

(** C1: for every payload of length [L], [createWavUrl] makes an object
    URL for a blob of exactly [44 + L] bytes in which, read little-endian,
    offsets 4-7 hold [L + 36], offsets 24-27 hold 24000, offsets 32-33 hold
    2, offsets 34-35 hold 16 and offsets 40-43 hold [L]; the payload follows
    the 44 header bytes.  The payload is the string [atob] returns, and a
    string of a JavaScript engine has fewer than [2^31] characters: the
    bound [L + 36 < 2^32], which the four-byte field at offset 4 needs,
    holds of every payload the function can be given. *)
Theorem createWavUrl_header (env : Env) (pcmBase64 : string)
  (byteCharacters : list Z) (w : World) :
  atob env pcmBase64 = Returns byteCharacters ->
  Z.of_nat (List.length byteCharacters) + 36 < 2 ^ 32 ->
  exists url w' bytes,
    createWavUrl env pcmBase64 w = (Ok url, w')
    /\ resolveObjectURL w' url = Some (OfParts bytes "audio/wav")
    /\ Z.of_nat (List.length bytes) = 44 + Z.of_nat (List.length byteCharacters)
    /\ getUintLE bytes 4 4 = Z.of_nat (List.length byteCharacters) + 36
    /\ getUintLE bytes 24 4 = 24000
    /\ getUintLE bytes 32 2 = 2
    /\ getUintLE bytes 34 2 = 16
    /\ getUintLE bytes 40 4 = Z.of_nat (List.length byteCharacters)
    /\ skipn 44 bytes = map (fun n => byte.of_Z (ToUint8 n)) byteCharacters.
Proof.
  intros Hatob Hlen.
  exists (List.length (objectUrls w)),
         (snd (createObjectURL (OfParts (wavLayout byteCharacters) "audio/wav") w)),
         (wavLayout byteCharacters).
  destruct (wavLayout_format byteCharacters) as (Hrate & Halign & Hbits).
  repeat split; trivial.
  - rewrite (createWavUrl_run _ _ byteCharacters) by (trivial; lia). reflexivity.
  - apply resolve_createObjectURL.
  - apply wavLayout_length.
  - rewrite wavLayout_riffSize. unfold ToUint32. rewrite Z.mod_small; lia.
  - rewrite wavLayout_dataSize. unfold ToUint32. rewrite Z.mod_small; lia.
Qed.

Lemma createWavUrl_header_witness :
  exists url w' bytes,
    createWavUrl (decoding "AQID" [1; 2; 3]) "AQID" initialWorld = (Ok url, w')
    /\ resolveObjectURL w' url = Some (OfParts bytes "audio/wav")
    /\ Z.of_nat (List.length bytes) = 44 + 3
    /\ getUintLE bytes 4 4 = 3 + 36
    /\ getUintLE bytes 24 4 = 24000
    /\ getUintLE bytes 32 2 = 2
    /\ getUintLE bytes 34 2 = 16
    /\ getUintLE bytes 40 4 = 3
    /\ skipn 44 bytes = [Byte.x01; Byte.x02; Byte.x03].
Proof.
  apply (createWavUrl_header (decoding "AQID" [1; 2; 3]) "AQID" [1; 2; 3]
           initialWorld).
  - reflexivity.
  - vm_compute. reflexivity.
Defined.

(** ** C3: the utterance and the voice *)

Example utterance_sample :
  utterance Sample.lines = "hola" ++ newline ++ "mundo"
  /\ join (map translated Sample.lines) newline = utterance Sample.lines
  /\ voiceFor "MALE" = "Fenrir" /\ voiceFor "FEMALE" = "Kore"
  /\ voiceFor "UNKNOWN" = "Puck" /\ voiceFor "male" = "Puck".
Proof. repeat split. Qed.

(** C3: for every sequence of translated lines and every gender value,
    [generateDubbedAudio] (with a configured credential) sends one speech
    request whose text is the translated texts in sequence order joined by
    newlines, and whose voice is the male voice for ["MALE"], the female
    voice for ["FEMALE"] and the neutral voice for any other value. *)
Theorem generateDubbedAudio_request (env : Env) (lines : list TranslatedLine)
  (gender targetLanguage : string) (w : World) :
  truthy (API_KEY env) = true ->
  exists textToSpeak voiceName,
    calls (snd (generateDubbedAudio env lines gender targetLanguage w))
    = (calls w ++ [SpeechRequest textToSpeak voiceName safetySettings])%list
    /\ textToSpeak = String.concat newline (map translated lines)
    /\ (gender = "MALE" -> voiceName = VOICES.MALE)
    /\ (gender = "FEMALE" -> voiceName = VOICES.FEMALE)
    /\ (gender <> "MALE" -> gender <> "FEMALE" -> voiceName = VOICES.NEUTRAL).
Proof.
  intros Hkey. exists (utterance lines), (voiceFor gender).
  split; [|split; [reflexivity|]].
  - rewrite generateDubbedAudio_unfold. unfold bind at 1.
    rewrite (getAiClient_configured _ _ Hkey).
    unfold try_catch, bind, callGenerateContent.
    destruct (generateContent env (speechRequest lines gender)) as [response|msg];
      cbn [received]; [|reflexivity].
    match goal with
    | |- context [speechOutcome env response ?w1] =>
        pose proof (speechOutcome_calls env response w1) as Hc;
        destruct (speechOutcome env response w1) as [[url|e] w2]
    end; exact Hc.
  - unfold voiceFor. repeat split.
    + intros ->. reflexivity.
    + intros ->. reflexivity.
    + intros Hm Hf.
      apply String.eqb_neq in Hm. apply String.eqb_neq in Hf.
      rewrite Hm, Hf. reflexivity.
Qed.

Lemma generateDubbedAudio_request_witness :
  exists textToSpeak voiceName,
    calls (snd (generateDubbedAudio (Sample.answering Sample.audioPart)
                  Sample.lines "UNKNOWN" "Spanish" initialWorld))
    = ([] ++ [SpeechRequest textToSpeak voiceName safetySettings])%list
    /\ textToSpeak = String.concat newline (map translated Sample.lines)
    /\ ("UNKNOWN" = "MALE" -> voiceName = VOICES.MALE)
    /\ ("UNKNOWN" = "FEMALE" -> voiceName = VOICES.FEMALE)
    /\ ("UNKNOWN" <> "MALE" -> "UNKNOWN" <> "FEMALE" -> voiceName = VOICES.NEUTRAL).
Proof.
  apply (generateDubbedAudio_request (Sample.answering Sample.audioPart)
           Sample.lines "UNKNOWN" "Spanish" initialWorld).
  reflexivity.
Defined.

(** ** C4 and C5: failed analysis, failed translation *)

(** C4: when [startAnalysis] runs with a file selected and its awaited
    work (reading the file, then the analyze operation) fails with any
    error, the session data is as before, so [analysis] stays unset, the
    state ends as [IDLE], and a non-empty error message is recorded: the
    error's own message, or the fallback text when it has none. *)
Theorem startAnalysis_failure (env : Env) (w : World) (f : File) (e : JsError) :
  file (songData w) = Some f ->
  fst (analysisAttempt env f (snd (setState ANALYZING w))) = Throw e ->
  songData (snd (startAnalysis env w)) = songData w
  /\ (analysis (songData w) = None ->
      analysis (songData (snd (startAnalysis env w))) = None)
  /\ state (snd (startAnalysis env w)) = IDLE
  /\ error (snd (startAnalysis env w))
     = Some (or_else (message e) "Analysis failed. Please try again.")
  /\ or_else (message e) "Analysis failed. Please try again." <> "".
Proof.
  intros Hf Hfail. rewrite (startAnalysis_run _ _ _ Hf). cbv zeta. rewrite Hfail.
  destruct (analysisAttempt_app env f (snd (setState ANALYZING w)))
    as (Hs & Hd & He & Hl & Hh).
  assert (Hdata : songData
            (snd ((setError (Some (or_else (message e) "Analysis failed. Please try again.")) ;;
                   setState IDLE)
                    (snd (analysisAttempt env f (snd (setState ANALYZING w))))))
          = songData w).
  { cbn [bind setError setState snd songData] in *. exact Hd. }
  repeat split.
  - exact Hdata.
  - intros Hnone. rewrite Hdata. exact Hnone.
  - destruct (message e) as [[|c m]|]; discriminate.
Qed.

Lemma startAnalysis_failure_witness :
  songData (snd (startAnalysis Sample.failing
                   (fire Sample.failing (SelectFile (Some Sample.song)) initialWorld)))
  = songData (fire Sample.failing (SelectFile (Some Sample.song)) initialWorld)
  /\ state (snd (startAnalysis Sample.failing
                   (fire Sample.failing (SelectFile (Some Sample.song)) initialWorld)))
     = IDLE
  /\ error (snd (startAnalysis Sample.failing
                   (fire Sample.failing (SelectFile (Some Sample.song)) initialWorld)))
     = Some "503 Service Unavailable".
Proof.
  destruct (startAnalysis_failure Sample.failing
              (fire Sample.failing (SelectFile (Some Sample.song)) initialWorld)
              Sample.song (External (Some "503 Service Unavailable")))
    as (Hd & _ & Hs & He & _).
  - reflexivity.
  - reflexivity.
  - split; [exact Hd | split; [exact Hs | exact He]].
Defined.

(** C5: when [handleTranslate] runs with an analysis present and the
    translate operation fails with any error, the session data is as
    before, so [translations] stays empty and [analysis] is the one stored,
    the state ends as [LYRICS_REVIEW], and a non-empty error message is
    recorded. *)
Theorem handleTranslate_failure (env : Env) (w : World) (a : AnalysisResult)
  (e : JsError) :
  analysis (songData w) = Some a ->
  fst (translateLyrics env (lyrics a) (targetLanguage (songData w)) (language a)
         (bpm a) (snd (setState ANALYZING w))) = Throw e ->
  songData (snd (handleTranslate env w)) = songData w
  /\ (translations (songData w) = [] ->
      translations (songData (snd (handleTranslate env w))) = [])
  /\ analysis (songData (snd (handleTranslate env w))) = Some a
  /\ state (snd (handleTranslate env w)) = LYRICS_REVIEW
  /\ error (snd (handleTranslate env w))
     = Some (or_else (message e) "Translation failed.")
  /\ or_else (message e) "Translation failed." <> "".
Proof.
  intros Ha Hfail. rewrite (handleTranslate_run _ _ _ Ha). cbv zeta. rewrite Hfail.
  destruct (translateLyrics_app env (lyrics a) (targetLanguage (songData w))
              (language a) (bpm a) (snd (setState ANALYZING w)))
    as (Hs & Hd & He & Hl & Hh).
  assert (Hdata : songData
            (snd ((setError (Some (or_else (message e) "Translation failed.")) ;;
                   setState LYRICS_REVIEW)
                    (snd (translateLyrics env (lyrics a) (targetLanguage (songData w))
                            (language a) (bpm a) (snd (setState ANALYZING w))))))
          = songData w).
  { cbn [bind setError setState snd songData] in *. exact Hd. }
  repeat split.
  - exact Hdata.
  - intros Hnone. rewrite Hdata. exact Hnone.
  - rewrite Hdata. exact Ha.
  - destruct (message e) as [[|c m]|]; discriminate.
Qed.

Lemma handleTranslate_failure_witness :
  songData (snd (handleTranslate Sample.failing analysedSession)) = songData analysedSession
  /\ translations (songData (snd (handleTranslate Sample.failing analysedSession))) = []
  /\ analysis (songData (snd (handleTranslate Sample.failing analysedSession)))
     = Some Sample.result
  /\ state (snd (handleTranslate Sample.failing analysedSession)) = LYRICS_REVIEW
  /\ error (snd (handleTranslate Sample.failing analysedSession))
     = Some "503 Service Unavailable".
Proof.
  destruct (handleTranslate_failure Sample.failing analysedSession Sample.result
              (External (Some "503 Service Unavailable")))
    as (Hd & Ht & Ha & Hs & He & _).
  - reflexivity.
  - reflexivity.
  - split; [exact Hd | split; [apply Ht; reflexivity | split; [exact Ha | split;
      [exact Hs | exact He]]]].
Defined.

(** ** C6: reset *)

(** C6, as stated, fails: a session that holds the object URL of its
    source file and the object URL of its dubbed audio is reset, and both
    URLs still stand for their blobs afterwards.  [resetApp] drops the
    references; it never calls [URL.revokeObjectURL]. *)
Lemma resetApp_keeps_object_urls :
  audioUrl (songData completeSession) = Some 0%nat
  /\ dubbedAudioUrl (songData completeSession) = Some 1%nat
  /\ resolveObjectURL (snd (resetApp completeSession)) 0%nat = Some (OfFile Sample.song)
  /\ resolveObjectURL (snd (resetApp completeSession)) 1%nat
     = Some (OfParts (wavLayout [0; 0; 0]) "audio/wav").
Proof.
  split; [vm_compute; reflexivity|].
  split; [vm_compute; reflexivity|].
  split; vm_compute; reflexivity.
Qed.

(** C6 (amended): from any state and any session contents, [resetApp]
    ends in [IDLE] with [file], [audioUrl], [analysis], [translations],
    [targetLanguage] and [dubbedAudioUrl] at their initial values, no error
    and the loading flag off; the session then refers to no file and to no
    object URL, neither the source file's nor the dubbed audio's.  The
    handles are dropped, not released: the registry of object URLs is as it
    was before the reset. *)
Theorem resetApp_restores (w : World) :
  state (snd (resetApp w)) = state initialWorld
  /\ state (snd (resetApp w)) = IDLE
  /\ songData (snd (resetApp w)) = songData initialWorld
  /\ file (songData (snd (resetApp w))) = None
  /\ audioUrl (songData (snd (resetApp w))) = None
  /\ analysis (songData (snd (resetApp w))) = None
  /\ translations (songData (snd (resetApp w))) = []
  /\ targetLanguage (songData (snd (resetApp w))) = "Spanish"
  /\ dubbedAudioUrl (songData (snd (resetApp w))) = None
  /\ error (snd (resetApp w)) = None
  /\ isDubbingLoading (snd (resetApp w)) = false
  /\ (forall url, ~ holdsUrl (songData (snd (resetApp w))) url)
  /\ objectUrls (snd (resetApp w)) = objectUrls w.
Proof.
  repeat split.
  intros url [H|H]; discriminate H.
Qed.

(** [resetApp] makes no call to [URL.revokeObjectURL]: the registry of
    object URLs is as it was. *)
Lemma resetApp_registry (w : World) :
  objectUrls (snd (resetApp w)) = objectUrls w /\ calls (snd (resetApp w)) = calls w.
Proof. split; reflexivity. Qed.

(** ** C7: a file that is too large *)

(** C7: for every selected file larger than 10 MiB (10485760 bytes),
    [handleFileUpload] records the file-size error, leaves the state as it
    was ([IDLE], where the file input is on the page), leaves every session
    field as it was, registers no object URL and sends no request.  The
    handler takes no environment: it awaits nothing. *)
Theorem handleFileUpload_too_large (f : File) (w : World) :
  size f > 10 * 1024 * 1024 ->
  error (snd (handleFileUpload (Some f) w))
  = Some "File size must be less than 10MB for this demo."
  /\ state (snd (handleFileUpload (Some f) w)) = state w
  /\ (state w = IDLE -> state (snd (handleFileUpload (Some f) w)) = IDLE)
  /\ songData (snd (handleFileUpload (Some f) w)) = songData w
  /\ calls (snd (handleFileUpload (Some f) w)) = calls w
  /\ objectUrls (snd (handleFileUpload (Some f) w)) = objectUrls w
  /\ fst (handleFileUpload (Some f) w) = Ok tt.
Proof.
  intros Hbig. unfold handleFileUpload.
  destruct (Z.gtb_spec (size f) (10 * 1024 * 1024)) as [_|Hle]; [|lia].
  repeat split. intros H. exact H.
Qed.

Lemma handleFileUpload_too_large_witness :
  size Sample.bigSong = 12582912
  /\ error (snd (handleFileUpload (Some Sample.bigSong) initialWorld))
     = Some "File size must be less than 10MB for this demo."
  /\ state (snd (handleFileUpload (Some Sample.bigSong) initialWorld)) = IDLE
  /\ songData (snd (handleFileUpload (Some Sample.bigSong) initialWorld))
     = initialSongData
  /\ calls (snd (handleFileUpload (Some Sample.bigSong) initialWorld)) = [].
Proof.
  destruct (handleFileUpload_too_large Sample.bigSong initialWorld)
    as (He & _ & Hs & Hd & Hc & _).
  - reflexivity.
  - split; [reflexivity | split; [exact He | split; [apply Hs; reflexivity |
      split; [exact Hd | exact Hc]]]].
Defined.

(** ** C8 and C9: refusals *)

Lemma generateDubbedAudio_refused env lines gender targetLanguage w response t :
  truthy (API_KEY env) = true ->
  generateContent env (speechRequest lines gender) = Returns response ->
  refusalOf response = Some t -> t <> "" ->
  truthy (base64AudioOf response) = false ->
  fst (generateDubbedAudio env lines gender targetLanguage w) = Throw (Refused t).
Proof.
  intros Hkey Hresp Ht Hne Hno.
  rewrite (generateDubbedAudio_answered _ _ _ _ _ _ Hkey Hresp), rethrow_outcome.
  apply speechOutcome_refused; assumption.
Qed.

(** C8: when the answer to the speech request has text and no inline
    audio in its first part, [generateDubbedAudio] throws an error whose
    message carries that text, and [handleDubbing], started in [DUBBING],
    ends in [DUBBING] with that message recorded and the loading flag
    off. *)
Theorem refusal_reported (env : Env) (w : World) (a : AnalysisResult)
  (response : Response) (t : string) :
  analysis (songData w) = Some a ->
  translations (songData w) <> [] ->
  state w = DUBBING ->
  truthy (API_KEY env) = true ->
  generateContent env (speechRequest (translations (songData w)) (gender a))
  = Returns response ->
  refusalOf response = Some t -> t <> "" ->
  truthy (base64AudioOf response) = false ->
  (forall w0,
      fst (generateDubbedAudio env (translations (songData w)) (gender a)
             (targetLanguage (songData w)) w0) = Throw (Refused t))
  /\ message (Refused t) = Some ("Model refused or failed to generate audio: " ++ t)
  /\ state (snd (handleDubbing env w)) = DUBBING
  /\ error (snd (handleDubbing env w))
     = Some ("Model refused or failed to generate audio: " ++ t)
  /\ isDubbingLoading (snd (handleDubbing env w)) = false
  /\ songData (snd (handleDubbing env w)) = songData w.
Proof.
  intros Ha Htr Hst Hkey Hresp Ht Hne Hno.
  assert (Hthrow : forall w0,
             fst (generateDubbedAudio env (translations (songData w)) (gender a)
                    (targetLanguage (songData w)) w0) = Throw (Refused t)).
  { intros w0. eapply generateDubbedAudio_refused; eassumption. }
  split; [exact Hthrow|]. split; [reflexivity|].
  rewrite (handleDubbing_run _ _ _ Ha Htr). cbv zeta. rewrite Hthrow.
  destruct (generateDubbedAudio_app env (translations (songData w)) (gender a)
              (targetLanguage (songData w))
              (snd ((setIsDubbingLoading true ;; setError None) w)))
    as (Hs & Hd & He & Hl & Hh).
  cbn [bind setError setIsDubbingLoading setState fst snd state songData error
         isDubbingLoading] in *.
  repeat split.
  - rewrite Hs. exact Hst.
  - exact Hd.
Qed.

Lemma refusal_reported_witness :
  fst (generateDubbedAudio (Sample.answering Sample.refusalPart)
         (translations (songData dubbingSession)) "FEMALE" "Spanish" initialWorld)
  = Throw (Refused "I cannot sing this.")
  /\ state (snd (handleDubbing (Sample.answering Sample.refusalPart) dubbingSession))
     = DUBBING
  /\ error (snd (handleDubbing (Sample.answering Sample.refusalPart) dubbingSession))
     = Some "Model refused or failed to generate audio: I cannot sing this."
  /\ isDubbingLoading
       (snd (handleDubbing (Sample.answering Sample.refusalPart) dubbingSession))
     = false.
Proof.
  destruct (refusal_reported (Sample.answering Sample.refusalPart) dubbingSession
              Sample.result (Sample.speech Sample.refusalPart)
              "I cannot sing this.")
    as (Hg & _ & Hs & He & Hl & _).
  - reflexivity.
  - discriminate.
  - reflexivity.
  - reflexivity.
  - reflexivity.
  - reflexivity.
  - discriminate.
  - reflexivity.
  - split; [exact (Hg initialWorld) | split; [exact Hs | split; [exact He | exact Hl]]].
Defined.

(** C9: when the first part of the answer has both text and inline audio
    (which decodes, and fits in an array), [generateDubbedAudio] succeeds
    and returns an object URL for the WAV bytes built from the decoded
    audio; and whenever [generateDubbedAudio] throws the refusal error, the
    answer had no inline audio. *)
Theorem refusal_only_without_audio (env : Env) (lines : list TranslatedLine)
  (gender targetLanguage : string) (w : World) :
  (forall response t d byteCharacters,
      truthy (API_KEY env) = true ->
      generateContent env (speechRequest lines gender) = Returns response ->
      refusalOf response = Some t -> t <> "" ->
      base64AudioOf response = Some d -> d <> "" ->
      atob env d = Returns byteCharacters ->
      Z.of_nat (List.length byteCharacters) <= 2 ^ 32 - 1 ->
      exists url w',
        generateDubbedAudio env lines gender targetLanguage w = (Ok url, w')
        /\ resolveObjectURL w' url
           = Some (OfParts (wavLayout byteCharacters) "audio/wav"))
  /\ (forall t,
         fst (generateDubbedAudio env lines gender targetLanguage w)
         = Throw (Refused t) ->
         exists response,
           generateContent env (speechRequest lines gender) = Returns response
           /\ truthy (base64AudioOf response) = false
           /\ refusalOf response = Some t).
Proof.
  split.
  - intros response t d chars Hkey Hresp Ht Hne Hd Hdne Hatob Hlen.
    rewrite (generateDubbedAudio_answered _ _ _ _ _ _ Hkey Hresp).
    match goal with
    | |- context [try_catch _ _ ?w1] => set (w1' := w1)
    end.
    destruct (speechOutcome_audio env response w1' d Hd Hdne) as (Hfst & Hsnd).
    rewrite (createWavUrl_run _ _ chars) in Hfst, Hsnd by assumption.
    match type of Hsnd with
    | _ = snd (createObjectURL ?b ?w2) =>
        exists (List.length (objectUrls w2)), (snd (createObjectURL b w2));
        split; [|apply resolve_createObjectURL];
        apply rethrow_ok;
        rewrite (surjective_pairing (speechOutcome env response w1')), Hfst, Hsnd;
        reflexivity
    end.
  - intros t H. apply generateDubbedAudio_refused_inv in H.
    destruct H as (response & Hresp & Hno & Ht & _). eauto.
Qed.

Lemma refusal_only_without_audio_witness :
  exists url w',
    generateDubbedAudio (Sample.answering Sample.mixedPart) Sample.lines "MALE"
      "Spanish" initialWorld = (Ok url, w')
    /\ resolveObjectURL w' url = Some (OfParts (wavLayout [0; 0; 0]) "audio/wav").
Proof.
  apply (proj1 (refusal_only_without_audio (Sample.answering Sample.mixedPart)
                  Sample.lines "MALE" "Spanish" initialWorld)
           (Sample.speech Sample.mixedPart) "Here is the audio." "AAAA" [0; 0; 0]).
  - reflexivity.
  - reflexivity.
  - reflexivity.
  - discriminate.
  - reflexivity.
  - discriminate.
  - reflexivity.
  - vm_compute. discriminate.
Defined.

(** ** C10: triggers without their data *)

(** C10: [startAnalysis] with no file selected, [handleTranslate] with no
    analysis, and [handleDubbing] with no analysis or with no translated
    line return at once and leave the whole world as it was: state,
    session data, flags, registry of object URLs and the log of requests
    sent. *)
Theorem triggers_without_data (env : Env) (w : World) :
  (file (songData w) = None -> startAnalysis env w = (Ok tt, w))
  /\ (analysis (songData w) = None -> handleTranslate env w = (Ok tt, w))
  /\ (analysis (songData w) = None \/ translations (songData w) = [] ->
      handleDubbing env w = (Ok tt, w)).
Proof.
  split; [apply startAnalysis_noop|].
  split; [apply handleTranslate_noop | apply handleDubbing_noop].
Qed.

Lemma triggers_without_data_witness :
  startAnalysis (Sample.answering Sample.audioPart) initialWorld = (Ok tt, initialWorld)
  /\ handleTranslate (Sample.answering Sample.audioPart) initialWorld
     = (Ok tt, initialWorld)
  /\ handleDubbing (Sample.answering Sample.audioPart) initialWorld
     = (Ok tt, initialWorld)
  /\ handleDubbing (Sample.answering Sample.audioPart) analysedSession = (Ok tt, analysedSession).
Proof.
  destruct (triggers_without_data (Sample.answering Sample.audioPart) initialWorld)
    as (H1 & H2 & H3).
  destruct (triggers_without_data (Sample.answering Sample.audioPart) analysedSession)
    as (_ & _ & H4).
  split; [apply H1; reflexivity|].
  split; [apply H2; reflexivity|].
  split; [apply H3; left; reflexivity|].
  apply H4; right; reflexivity.
Defined.

(** ** C2: when the results are stored *)

Lemma AppState_eqb_eq (a b : AppState) : AppState_eqb a b = true -> a = b.
Proof. destruct a, b; cbn; congruence. Qed.

Ltac orderly_cons :=
  repeat first
    [ assumption
    | apply Forall_app; split
    | apply Forall_cons
    | apply Forall_nil
    | match goal with
      | |- orderly _ =>
          split; cbn [fst snd populatesTranslations populatesDubbedAudioUrl];
          intros ?; first [reflexivity | discriminate | congruence]
      end ].

Lemma handleFileUpload_orderly files0 w :
  Forall orderly (history w) ->
  Forall orderly (history (snd (handleFileUpload files0 w))).
Proof.
  intros H. destruct files0 as [f|]; [|exact H].
  unfold handleFileUpload. destruct (size f >? 10 * 1024 * 1024)%Z.
  - cbn. unfold record. orderly_cons.
  - cbn. unfold record. cbn. orderly_cons.
Qed.

Lemma selectTargetLanguage_orderly code w :
  Forall orderly (history w) ->
  Forall orderly (history (snd (selectTargetLanguage code w))).
Proof. intros H. cbn. unfold record. orderly_cons. Qed.

Lemma resetApp_orderly w :
  Forall orderly (history w) -> Forall orderly (history (snd (resetApp w))).
Proof. intros H. cbn. unfold record. cbn. orderly_cons. Qed.

Lemma startAnalysis_orderly env w :
  Forall orderly (history w) ->
  Forall orderly (history (snd (startAnalysis env w))).
Proof.
  intros H. destruct (file (songData w)) as [f|] eqn:Hf.
  - rewrite (startAnalysis_run _ _ _ Hf). cbv zeta.
    destruct (analysisAttempt_app env f (snd (setState ANALYZING w)))
      as (Hs & Hd & He & Hl & Hh).
    destruct (analysisAttempt env f (snd (setState ANALYZING w))) as [[a|e] w2];
      cbn [fst snd setState history state] in *;
      cbn [bind setSongData setError setState fst snd history state];
      unfold record in *; cbn [history state]; rewrite Hh; orderly_cons.
  - rewrite (startAnalysis_noop _ _ Hf). exact H.
Qed.

Lemma handleTranslate_orderly env w :
  Forall orderly (history w) ->
  Forall orderly (history (snd (handleTranslate env w))).
Proof.
  intros H. destruct (analysis (songData w)) as [a|] eqn:Ha.
  - rewrite (handleTranslate_run _ _ _ Ha). cbv zeta.
    destruct (translateLyrics_app env (lyrics a) (targetLanguage (songData w))
                (language a) (bpm a) (snd (setState ANALYZING w)))
      as (Hs & Hd & He & Hl & Hh).
    destruct (translateLyrics env (lyrics a) (targetLanguage (songData w))
                (language a) (bpm a) (snd (setState ANALYZING w))) as [[t|e] w2];
      cbn [fst snd setState history state] in *;
      cbn [bind setSongData setError setState fst snd history state];
      unfold record in *; cbn [history state]; rewrite Hh, ?Hs; orderly_cons.
  - rewrite (handleTranslate_noop _ _ Ha). exact H.
Qed.

Lemma handleDubbing_orderly env w :
  state w = DUBBING ->
  Forall orderly (history w) ->
  Forall orderly (history (snd (handleDubbing env w))).
Proof.
  intros Hst H. destruct (analysis (songData w)) as [a|] eqn:Ha.
  - destruct (translations (songData w)) as [|l ls] eqn:Hl.
    + rewrite handleDubbing_noop by (right; exact Hl). exact H.
    + assert (Hne : translations (songData w) <> []) by (rewrite Hl; discriminate).
      rewrite (handleDubbing_run _ _ _ Ha Hne). cbv zeta.
      destruct (generateDubbedAudio_app env (translations (songData w)) (gender a)
                  (targetLanguage (songData w))
                  (snd ((setIsDubbingLoading true ;; setError None) w)))
        as (Hs & Hd & He & Hld & Hh).
      destruct (generateDubbedAudio env (translations (songData w)) (gender a)
                  (targetLanguage (songData w))
                  (snd ((setIsDubbingLoading true ;; setError None) w)))
        as [[u|e] w2];
        cbn [bind fst snd setIsDubbingLoading setError history state] in *;
        cbn [bind setSongData setError setState setIsDubbingLoading fst snd
               history state];
        unfold record in *; cbn [history state] in *; rewrite Hh, ?Hs, ?Hst;
        orderly_cons.
  - rewrite handleDubbing_noop by (left; exact Ha). exact H.
Qed.

Lemma fire_orderly env t w :
  enabled w t = true ->
  Forall orderly (history w) -> Forall orderly (history (fire env t w)).
Proof.
  intros Hen H. unfold fire. destruct t; cbn [handler].
  - apply handleFileUpload_orderly, H.
  - apply startAnalysis_orderly, H.
  - apply selectTargetLanguage_orderly, H.
  - apply handleTranslate_orderly, H.
  - apply handleDubbing_orderly; [|exact H].
    apply AppState_eqb_eq. exact Hen.
  - apply resetApp_orderly, H.
Qed.

Lemma reachable_orderly w : reachable w -> Forall orderly (history w).
Proof.
  induction 1 as [|w env t Hw IH Hen].
  - apply Forall_nil.
  - apply fire_orderly; assumption.
Qed.

Lemma analysedSession_reachable : reachable analysedSession.
Proof.
  unfold analysedSession. apply reachable_fire; [|reflexivity].
  apply reachable_fire; [|reflexivity].
  apply reachable_init.
Qed.

Lemma dubbingSession_reachable : reachable dubbingSession.
Proof.
  unfold dubbingSession. apply reachable_fire; [|reflexivity].
  apply analysedSession_reachable.
Qed.

(** C2, as stated, fails: after selecting a file, analysing it and
    translating it, the record shows [translations] assigned while the
    state was [ANALYZING], the state [handleTranslate] enters before it
    calls the translate operation. *)
Lemma translations_assigned_while_ANALYZING :
  reachable dubbingSession
  /\ In (ANALYZING, WSongData (PTranslations Sample.lines)) (history dubbingSession)
  /\ populatesTranslations (WSongData (PTranslations Sample.lines)) = true
  /\ translations (songData dubbingSession) = Sample.lines.
Proof.
  split; [apply dubbingSession_reachable|].
  split; [|split; reflexivity].
  vm_compute. do 6 right. left. reflexivity.
Qed.

(** C2 (amended): in every execution in which each trigger is one the
    page offers and runs to completion before the next, translated lines
    are stored only while the state is [ANALYZING] (so never while it is
    [IDLE]), and a dubbed-audio URL is stored only while the state is
    [DUBBING] (so never while it is [LYRICS_REVIEW]). *)
Theorem results_stored_in_order (w : World) (s : AppState) (wr : Write) :
  reachable w ->
  In (s, wr) (history w) ->
  (populatesTranslations wr = true -> s = ANALYZING /\ s <> IDLE)
  /\ (populatesDubbedAudioUrl wr = true -> s = DUBBING /\ s <> LYRICS_REVIEW).
Proof.
  intros Hw Hin.
  pose proof (reachable_orderly w Hw) as Hall.
  rewrite Forall_forall in Hall. destruct (Hall _ Hin) as [Ht Hd].
  cbn [fst snd] in *. split; intros Hp.
  - rewrite (Ht Hp). split; [reflexivity | discriminate].
  - rewrite (Hd Hp). split; [reflexivity | discriminate].
Qed.

Lemma results_stored_in_order_witness :
  (populatesTranslations (WSongData (PTranslations Sample.lines)) = true ->
   ANALYZING = ANALYZING /\ ANALYZING <> IDLE)
  /\ (populatesDubbedAudioUrl (WSongData (PTranslations Sample.lines)) = true ->
      ANALYZING = DUBBING /\ ANALYZING <> LYRICS_REVIEW).
Proof.
  apply (results_stored_in_order dubbingSession ANALYZING
           (WSongData (PTranslations Sample.lines))).
  - apply dubbingSession_reachable.
  - vm_compute. do 6 right. left. reflexivity.
Defined.

(* ================================================================= *)
(** * Further properties *)

(** ** More frames *)

Lemma sameUrls_refl w : sameUrls w w.
Proof. reflexivity. Qed.

Lemma sameUrls_trans w1 w2 w3 : sameUrls w1 w2 -> sameUrls w2 w3 -> sameUrls w1 w3.
Proof. unfold sameUrls. congruence. Qed.

Lemma sameConsole_refl w : sameConsole w w.
Proof. reflexivity. Qed.

Lemma sameConsole_trans w1 w2 w3 :
  sameConsole w1 w2 -> sameConsole w2 w3 -> sameConsole w1 w3.
Proof. unfold sameConsole. congruence. Qed.

Lemma callGenerateContent_urls env req : preserves sameUrls (callGenerateContent env req).
Proof. intro w. reflexivity. Qed.

Lemma consoleLog_urls entry : preserves sameUrls (consoleLog entry).
Proof. intro w. reflexivity. Qed.

Lemma callGenerateContent_console env req :
  preserves sameConsole (callGenerateContent env req).
Proof. intro w. reflexivity. Qed.

Lemma createObjectURL_console b : preserves sameConsole (createObjectURL b).
Proof. intro w. reflexivity. Qed.

#[local] Hint Resolve sameUrls_refl sameConsole_refl callGenerateContent_urls
  consoleLog_urls callGenerateContent_console createObjectURL_console : frame.

Ltac frame_more :=
  repeat lazymatch goal with
    | |- forall _, _ => intro; cbv beta zeta
    | |- preserves _ (bind _ _) => apply preserves_bind
    | |- preserves _ (try_catch _ _) => apply preserves_try_catch
    | |- preserves _ (if _ then _ else _) => apply preserves_if
    | |- preserves _ (ret _) => apply preserves_ret
    | |- preserves _ (throw _) => apply preserves_throw
    | |- preserves _ (lift _) => apply preserves_lift
    | |- preserves _ (let _ := _ in _) => cbv zeta
    | |- sameUrls ?a ?b => solve [eauto 3 using sameUrls_trans with frame]
    | |- sameConsole ?a ?b => solve [eauto 3 using sameConsole_trans with frame]
    | |- _ => solve [auto 2 with frame]
    end.

Lemma getAiClient_urls env : preserves sameUrls (getAiClient env).
Proof. unfold getAiClient. frame_more. Qed.

Lemma fileToGenerativePart_urls env f : preserves sameUrls (fileToGenerativePart env f).
Proof.
  unfold fileToGenerativePart. destruct (readAsDataURL env f) as [[r|]|]; frame_more.
Qed.

#[local] Hint Resolve getAiClient_urls fileToGenerativePart_urls : frame.

Lemma analyzeAudio_urls env b64 mime : preserves sameUrls (analyzeAudio env b64 mime).
Proof. unfold analyzeAudio. frame_more. Qed.

Lemma translateLyrics_urls env l t o b : preserves sameUrls (translateLyrics env l t o b).
Proof. unfold translateLyrics. frame_more. Qed.

#[local] Hint Resolve analyzeAudio_urls translateLyrics_urls : frame.

Lemma analysisAttempt_urls env f : preserves sameUrls (analysisAttempt env f).
Proof. unfold analysisAttempt. frame_more. Qed.

Lemma createWavUrl_console env pcmBase64 : preserves sameConsole (createWavUrl env pcmBase64).
Proof. unfold createWavUrl. frame_more. Qed.

(** ** The gateway, outcome by outcome *)

Lemma analyzeAudio_unconfigured env b64 mime w :
  truthy (API_KEY env) = false ->
  analyzeAudio env b64 mime w = (Throw MissingApiKey, w).
Proof. intros H. unfold analyzeAudio, bind, getAiClient. rewrite H. reflexivity. Qed.

Lemma translateLyrics_unconfigured env l t o b w :
  truthy (API_KEY env) = false ->
  translateLyrics env l t o b w = (Throw MissingApiKey, w).
Proof. intros H. unfold translateLyrics, bind, getAiClient. rewrite H. reflexivity. Qed.

Lemma generateDubbedAudio_unconfigured env l g t w :
  truthy (API_KEY env) = false ->
  generateDubbedAudio env l g t w = (Throw MissingApiKey, w).
Proof.
  intros H. rewrite generateDubbedAudio_unfold. unfold bind, getAiClient.
  rewrite H. reflexivity.
Qed.

Lemma analyzeAudio_run env b64 mime w :
  truthy (API_KEY env) = true ->
  analyzeAudio env b64 mime w
  = match analysisOutcome env (AnalyzeRequest mime b64) with
    | Ok a => (Ok a, snd (callGenerateContent env (AnalyzeRequest mime b64) w))
    | Throw e =>
        (Throw e,
         snd (consoleLog (ConsoleError "Analysis failed:" e)
                (snd (callGenerateContent env (AnalyzeRequest mime b64) w))))
    end.
Proof.
  intros Hkey. unfold analyzeAudio. unfold bind at 1.
  rewrite (getAiClient_configured _ _ Hkey).
  unfold analysisOutcome, try_catch, bind, callGenerateContent, lift.
  destruct (generateContent env (AnalyzeRequest mime b64)) as [response|msg];
    cbn [received fst snd]; [|reflexivity].
  destruct (truthy (response_text response)); cbn [negb]; [|reflexivity].
  destruct (parseAnalysis env _) as [a|msg]; reflexivity.
Qed.

Lemma translateLyrics_run env l t o b w :
  truthy (API_KEY env) = true ->
  translateLyrics env l t o b w
  = match translationOutcome env (TranslateRequest l t o b) with
    | Ok lines => (Ok lines, snd (callGenerateContent env (TranslateRequest l t o b) w))
    | Throw e =>
        (Throw e,
         snd (consoleLog (ConsoleError "Translation failed:" e)
                (snd (callGenerateContent env (TranslateRequest l t o b) w))))
    end.
Proof.
  intros Hkey. unfold translateLyrics. unfold bind at 1.
  rewrite (getAiClient_configured _ _ Hkey).
  unfold translationOutcome, try_catch, bind, callGenerateContent, lift.
  destruct (generateContent env (TranslateRequest l t o b)) as [response|msg];
    cbn [received fst snd]; [|reflexivity].
  destruct (truthy (response_text response)); cbn [negb]; [|reflexivity].
  destruct (parseTranslations env _) as [a|msg]; reflexivity.
Qed.

Lemma createWavUrl_cases env pcmBase64 w :
  match atob env pcmBase64 with
  | Fails msg => createWavUrl env pcmBase64 w = (Throw (External msg), w)
  | Returns byteCharacters =>
      if (Z.of_nat (List.length byteCharacters) <=? 2 ^ 32 - 1)%Z
      then createWavUrl env pcmBase64 w
           = createObjectURL (OfParts (wavLayout byteCharacters) "audio/wav") w
      else createWavUrl env pcmBase64 w
           = (Throw (External (Some "Invalid array length")), w)
  end.
Proof.
  destruct (atob env pcmBase64) as [chars|msg] eqn:Hatob.
  - destruct (Z.leb_spec (Z.of_nat (List.length chars)) (2 ^ 32 - 1)) as [Hle|Hgt].
    + apply createWavUrl_run; assumption.
    + unfold createWavUrl, bind, lift, newArray. rewrite Hatob. cbn [received].
      destruct (Z.leb_spec (Z.of_nat (List.length chars)) (2 ^ 32 - 1)); [lia|].
      reflexivity.
  - unfold createWavUrl, bind, lift. rewrite Hatob. reflexivity.
Qed.

Lemma speechOutcome_run env response w :
  speechOutcome env response w
  = if truthy (base64AudioOf response)
    then createWavUrl env (or_else (base64AudioOf response) "") (warned response w)
    else if truthy (refusalOf response)
         then (Throw (Refused (or_else (refusalOf response) "")), warned response w)
         else (Throw (NoAudio
                        (or_else (chain (chain (candidates response) (@hd_error Candidate))
                                    finishReason) "UNKNOWN")),
               warned response w).
Proof.
  unfold speechOutcome, warned. cbv zeta.
  fold (firstPartOf response). fold (refusalOf response).
  fold (base64AudioOf response). unfold bind.
  destruct (truthy (refusalOf response)), (truthy (base64AudioOf response));
    reflexivity.
Qed.

Lemma warned_urls response w : objectUrls (warned response w) = objectUrls w.
Proof. unfold warned. destruct (truthy (refusalOf response)); reflexivity. Qed.

Lemma generateDubbedAudio_unanswered env lines gender targetLanguage w msg :
  truthy (API_KEY env) = true ->
  generateContent env (speechRequest lines gender) = Fails msg ->
  generateDubbedAudio env lines gender targetLanguage w
  = (Throw (External msg),
     snd (consoleLog (ConsoleError "Dubbing failed:" (External msg))
            (snd (callGenerateContent env (speechRequest lines gender) w)))).
Proof.
  intros Hkey Hresp. rewrite generateDubbedAudio_unfold.
  unfold bind at 1. rewrite (getAiClient_configured _ _ Hkey).
  unfold try_catch, bind, callGenerateContent. rewrite Hresp. reflexivity.
Qed.

(** Whatever [generateDubbedAudio] does, it registers an object URL only
    when it succeeds, and then exactly one, for the WAV of the decoded
    audio. *)
Lemma generateDubbedAudio_registry env lines gender targetLanguage w :
  match fst (generateDubbedAudio env lines gender targetLanguage w) with
  | Ok url =>
      exists response d byteCharacters,
        truthy (API_KEY env) = true
        /\ generateContent env (speechRequest lines gender) = Returns response
        /\ base64AudioOf response = Some d /\ d <> ""
        /\ atob env d = Returns byteCharacters
        /\ Z.of_nat (List.length byteCharacters) <= 2 ^ 32 - 1
        /\ url = List.length (objectUrls w)
        /\ objectUrls (snd (generateDubbedAudio env lines gender targetLanguage w))
           = (objectUrls w ++ [OfParts (wavLayout byteCharacters) "audio/wav"])%list
  | Throw e =>
      objectUrls (snd (generateDubbedAudio env lines gender targetLanguage w))
      = objectUrls w
  end.
Proof.
  destruct (truthy (API_KEY env)) eqn:Hkey.
  2:{ rewrite (generateDubbedAudio_unconfigured _ _ _ _ _ Hkey). reflexivity. }
  destruct (generateContent env (speechRequest lines gender)) as [response|msg] eqn:Hresp.
  2:{ rewrite (generateDubbedAudio_unanswered _ _ _ _ _ _ Hkey Hresp). reflexivity. }
  rewrite (generateDubbedAudio_answered _ _ _ _ _ _ Hkey Hresp).
  unfold try_catch. rewrite speechOutcome_run.
  destruct (truthy (base64AudioOf response)) eqn:Haudio.
  - destruct (truthy_inv _ Haudio) as (d & Hd & Hne & Hor). rewrite (Hor "").
    match goal with
    | |- context [createWavUrl env d ?w1] =>
        pose proof (createWavUrl_cases env d w1) as Hc;
        assert (Hu : objectUrls w1 = objectUrls w)
          by (rewrite warned_urls; reflexivity)
    end.
    destruct (atob env d) as [chars|msg] eqn:Hatob.
    + destruct (Z.leb_spec (Z.of_nat (List.length chars)) (2 ^ 32 - 1)) as [Hle|Hgt];
        rewrite Hc.
      * cbn [createObjectURL fst snd objectUrls]. rewrite Hu.
        exists response, d, chars. repeat split; assumption.
      * cbn. rewrite warned_urls. reflexivity.
    + rewrite Hc. cbn. rewrite warned_urls. reflexivity.
  - destruct (truthy (refusalOf response)); cbn; rewrite warned_urls; reflexivity.
Qed.

(** X1: without a credential (absent or empty [API_KEY]) each of the three
    gateway operations throws the missing-key error at once: no request is
    sent, nothing is logged, the world is untouched. *)
Theorem gateway_without_credential (env : Env) (w : World) :
  truthy (API_KEY env) = false ->
  (forall b64 mime, analyzeAudio env b64 mime w = (Throw MissingApiKey, w))
  /\ (forall l t o b, translateLyrics env l t o b w = (Throw MissingApiKey, w))
  /\ (forall l g t, generateDubbedAudio env l g t w = (Throw MissingApiKey, w)).
Proof.
  intros H. split; [|split]; intros.
  - apply analyzeAudio_unconfigured, H.
  - apply translateLyrics_unconfigured, H.
  - apply generateDubbedAudio_unconfigured, H.
Qed.

Lemma gateway_without_credential_witness :
  analyzeAudio unconfigured (Some "QUJD") "audio/mpeg" initialWorld
  = (Throw MissingApiKey, initialWorld)
  /\ generateDubbedAudio unconfigured Sample.lines "MALE" "Spanish" initialWorld
     = (Throw MissingApiKey, initialWorld).
Proof.
  destruct (gateway_without_credential unconfigured initialWorld) as (Ha & _ & Hd).
  - reflexivity.
  - split; [apply Ha | apply Hd].
Defined.

(** X2: with a credential, [analyzeAudio] sends exactly one request,
    carrying the MIME type and the data, and leaves the React state and the
    URL registry alone.  A failure of the service is rethrown as it is; an
    answer with no text is the no-response error; otherwise the outcome is
    that of parsing the text.  Every error is logged once, a success logs
    nothing. *)
Theorem analyzeAudio_outcome (env : Env) (b64 : option string) (mime : string)
  (w : World) :
  truthy (API_KEY env) = true ->
  calls (snd (analyzeAudio env b64 mime w)) = (calls w ++ [AnalyzeRequest mime b64])%list
  /\ sameApp w (snd (analyzeAudio env b64 mime w))
  /\ objectUrls (snd (analyzeAudio env b64 mime w)) = objectUrls w
  /\ (forall msg, generateContent env (AnalyzeRequest mime b64) = Fails msg ->
      fst (analyzeAudio env b64 mime w) = Throw (External msg))
  /\ (forall response,
         generateContent env (AnalyzeRequest mime b64) = Returns response ->
         truthy (response_text response) = false ->
         fst (analyzeAudio env b64 mime w) = Throw NoAnalysisResponse)
  /\ (forall response t,
         generateContent env (AnalyzeRequest mime b64) = Returns response ->
         response_text response = Some t -> t <> "" ->
         fst (analyzeAudio env b64 mime w) = received (parseAnalysis env t))
  /\ (forall e, fst (analyzeAudio env b64 mime w) = Throw e ->
      console (snd (analyzeAudio env b64 mime w))
      = (console w ++ [ConsoleError "Analysis failed:" e])%list)
  /\ (forall a, fst (analyzeAudio env b64 mime w) = Ok a ->
      console (snd (analyzeAudio env b64 mime w)) = console w).
Proof.
  intros Hkey. rewrite (analyzeAudio_run _ _ _ _ Hkey).
  split; [|split; [|split; [|split; [|split; [|split; [|split]]]]]].
  - destruct (analysisOutcome env _); reflexivity.
  - destruct (analysisOutcome env _); repeat split.
  - destruct (analysisOutcome env _); reflexivity.
  - intros msg H. unfold analysisOutcome. rewrite H. reflexivity.
  - intros response H Ht. unfold analysisOutcome. rewrite H, Ht. reflexivity.
  - intros response t H Ht Hne. unfold analysisOutcome.
    rewrite H, Ht, (truthy_nonempty t Hne).
    destruct t; [congruence|]. cbn [or_else].
    destruct (parseAnalysis env _); reflexivity.
  - destruct (analysisOutcome env _) as [a|e0]; cbn [fst snd];
      [discriminate | intros e [= <-]; reflexivity].
  - destruct (analysisOutcome env _) as [a0|e0]; cbn [fst snd];
      [intros; reflexivity | discriminate].
Qed.

Lemma analyzeAudio_outcome_witness :
  calls (snd (analyzeAudio Sample.failing (Some "QUJD") "audio/mpeg" initialWorld))
  = [AnalyzeRequest "audio/mpeg" (Some "QUJD")]
  /\ fst (analyzeAudio Sample.failing (Some "QUJD") "audio/mpeg" initialWorld)
     = Throw (External (Some "503 Service Unavailable"))
  /\ console (snd (analyzeAudio Sample.failing (Some "QUJD") "audio/mpeg" initialWorld))
     = [ConsoleError "Analysis failed:" (External (Some "503 Service Unavailable"))].
Proof.
  destruct (analyzeAudio_outcome Sample.failing (Some "QUJD") "audio/mpeg" initialWorld)
    as (Hc & _ & _ & Hf & _ & _ & Hl & _).
  - reflexivity.
  - split; [exact Hc|].
    assert (H : fst (analyzeAudio Sample.failing (Some "QUJD") "audio/mpeg" initialWorld)
                = Throw (External (Some "503 Service Unavailable")))
      by (apply Hf; reflexivity).
    split; [exact H | apply Hl, H].
Defined.

(** X3: with a credential, [translateLyrics] sends exactly one request,
    carrying the lyrics, both languages and the tempo, and leaves the
    React state and the URL registry alone; its outcome follows the answer
    as for [analyzeAudio], and every error is logged once. *)
Theorem translateLyrics_outcome (env : Env) (l : list string) (t o : string) (b : Z)
  (w : World) :
  truthy (API_KEY env) = true ->
  calls (snd (translateLyrics env l t o b w))
  = (calls w ++ [TranslateRequest l t o b])%list
  /\ sameApp w (snd (translateLyrics env l t o b w))
  /\ objectUrls (snd (translateLyrics env l t o b w)) = objectUrls w
  /\ (forall msg, generateContent env (TranslateRequest l t o b) = Fails msg ->
      fst (translateLyrics env l t o b w) = Throw (External msg))
  /\ (forall response,
         generateContent env (TranslateRequest l t o b) = Returns response ->
         truthy (response_text response) = false ->
         fst (translateLyrics env l t o b w) = Throw NoTranslationResponse)
  /\ (forall response txt,
         generateContent env (TranslateRequest l t o b) = Returns response ->
         response_text response = Some txt -> txt <> "" ->
         fst (translateLyrics env l t o b w) = received (parseTranslations env txt))
  /\ (forall e, fst (translateLyrics env l t o b w) = Throw e ->
      console (snd (translateLyrics env l t o b w))
      = (console w ++ [ConsoleError "Translation failed:" e])%list)
  /\ (forall lines, fst (translateLyrics env l t o b w) = Ok lines ->
      console (snd (translateLyrics env l t o b w)) = console w).
Proof.
  intros Hkey. rewrite (translateLyrics_run _ _ _ _ _ _ Hkey).
  split; [|split; [|split; [|split; [|split; [|split; [|split]]]]]].
  - destruct (translationOutcome env _); reflexivity.
  - destruct (translationOutcome env _); repeat split.
  - destruct (translationOutcome env _); reflexivity.
  - intros msg H. unfold translationOutcome. rewrite H. reflexivity.
  - intros response H Ht. unfold translationOutcome. rewrite H, Ht. reflexivity.
  - intros response txt H Ht Hne. unfold translationOutcome.
    rewrite H, Ht, (truthy_nonempty txt Hne).
    destruct txt; [congruence|]. cbn [or_else].
    destruct (parseTranslations env _); reflexivity.
  - destruct (translationOutcome env _) as [a|e0]; cbn [fst snd];
      [discriminate | intros e [= <-]; reflexivity].
  - destruct (translationOutcome env _) as [a0|e0]; cbn [fst snd];
      [intros; reflexivity | discriminate].
Qed.

Lemma translateLyrics_outcome_witness :
  calls (snd (translateLyrics (Sample.answering Sample.audioPart) ["hello"] "French"
                "English" 120 initialWorld))
  = [TranslateRequest ["hello"] "French" "English" 120]
  /\ fst (translateLyrics (Sample.answering Sample.audioPart) ["hello"] "French"
            "English" 120 initialWorld) = Ok Sample.lines.
Proof.
  destruct (translateLyrics_outcome (Sample.answering Sample.audioPart) ["hello"]
              "French" "English" 120 initialWorld)
    as (Hc & _ & _ & _ & _ & Hp & _ & _).
  - reflexivity.
  - split; [exact Hc|].
    apply (Hp {| response_text := Some "{}"; candidates := None |} "{}");
      [reflexivity | reflexivity | discriminate].
Defined.

(** X4: when the answer to the speech request has neither inline audio nor
    text in its first part (or has no candidate, content or part at all),
    [generateDubbedAudio] throws the no-audio error naming the first
    candidate's finish reason, or ["UNKNOWN"] when there is none; the error
    is logged and no object URL is registered. *)
Theorem generateDubbedAudio_no_audio (env : Env) (lines : list TranslatedLine)
  (gender targetLanguage : string) (w : World) (response : Response) :
  truthy (API_KEY env) = true ->
  generateContent env (speechRequest lines gender) = Returns response ->
  truthy (base64AudioOf response) = false ->
  truthy (refusalOf response) = false ->
  fst (generateDubbedAudio env lines gender targetLanguage w)
  = Throw (NoAudio (finishReasonOf response))
  /\ message (NoAudio (finishReasonOf response))
     = Some ("No audio data generated. Model finish reason: "
             ++ finishReasonOf response ++ ".")
  /\ (candidates response = None \/ candidates response = Some [] ->
      finishReasonOf response = "UNKNOWN")
  /\ objectUrls (snd (generateDubbedAudio env lines gender targetLanguage w))
     = objectUrls w
  /\ console (snd (generateDubbedAudio env lines gender targetLanguage w))
     = (console w ++ [ConsoleError "Dubbing failed:" (NoAudio (finishReasonOf response))])%list.
Proof.
  intros Hkey Hresp Haudio Htext.
  rewrite (generateDubbedAudio_answered _ _ _ _ _ _ Hkey Hresp).
  unfold try_catch. rewrite speechOutcome_run, Haudio, Htext.
  unfold warned. rewrite Htext. fold (finishReasonOf response).
  repeat split.
  intros [H|H]; unfold finishReasonOf; rewrite H; reflexivity.
Qed.

Lemma generateDubbedAudio_no_audio_witness :
  fst (generateDubbedAudio (speaking emptyAnswer) Sample.lines "MALE" "Spanish"
         initialWorld) = Throw (NoAudio "UNKNOWN")
  /\ objectUrls (snd (generateDubbedAudio (speaking emptyAnswer) Sample.lines "MALE"
                        "Spanish" initialWorld)) = [].
Proof.
  destruct (generateDubbedAudio_no_audio (speaking emptyAnswer) Sample.lines "MALE"
              "Spanish" initialWorld emptyAnswer)
    as (Hf & _ & _ & Hu & _).
  - reflexivity.
  - reflexivity.
  - reflexivity.
  - reflexivity.
  - split; [exact Hf | exact Hu].
Defined.

(** X5: [generateDubbedAudio] succeeds only when a credential is set, the
    service answered, the first part carries non-empty inline data, [atob]
    decodes it and the payload fits in an array; it then registers exactly
    one object URL, the one it returns, for the WAV of the decoded bytes.
    On every failure the registry of object URLs is left as it was. *)
Theorem generateDubbedAudio_registers_on_success (env : Env)
  (lines : list TranslatedLine) (gender targetLanguage : string) (w : World) :
  (forall url,
      fst (generateDubbedAudio env lines gender targetLanguage w) = Ok url ->
      exists response d byteCharacters,
        truthy (API_KEY env) = true
        /\ generateContent env (speechRequest lines gender) = Returns response
        /\ base64AudioOf response = Some d /\ d <> ""
        /\ atob env d = Returns byteCharacters
        /\ Z.of_nat (List.length byteCharacters) <= 2 ^ 32 - 1
        /\ url = List.length (objectUrls w)
        /\ objectUrls (snd (generateDubbedAudio env lines gender targetLanguage w))
           = (objectUrls w ++ [OfParts (wavLayout byteCharacters) "audio/wav"])%list)
  /\ (forall e,
         fst (generateDubbedAudio env lines gender targetLanguage w) = Throw e ->
         objectUrls (snd (generateDubbedAudio env lines gender targetLanguage w))
         = objectUrls w).
Proof.
  pose proof (generateDubbedAudio_registry env lines gender targetLanguage w) as H.
  split.
  - intros url Hok. rewrite Hok in H.
    destruct H as (response & d & chars & Hk & Hr & Hd & Hne & Ha & Hl & Hu & Ho).
    exists response, d, chars. repeat split; assumption.
  - intros e Hthrow. rewrite Hthrow in H. exact H.
Qed.

Lemma generateDubbedAudio_registers_on_success_witness :
  objectUrls (snd (generateDubbedAudio (Sample.answering Sample.refusalPart)
                     Sample.lines "MALE" "Spanish" initialWorld)) = []
  /\ exists byteCharacters,
       objectUrls (snd (generateDubbedAudio (Sample.answering Sample.audioPart)
                          Sample.lines "MALE" "Spanish" initialWorld))
       = [OfParts (wavLayout byteCharacters) "audio/wav"].
Proof.
  split.
  - apply (proj2 (generateDubbedAudio_registers_on_success
                    (Sample.answering Sample.refusalPart) Sample.lines "MALE" "Spanish"
                    initialWorld) (Refused "I cannot sing this.")).
    reflexivity.
  - destruct (proj1 (generateDubbedAudio_registers_on_success
                       (Sample.answering Sample.audioPart) Sample.lines "MALE" "Spanish"
                       initialWorld) 0%nat)
      as (response & d & chars & _ & _ & _ & _ & _ & _ & _ & Ho).
    + reflexivity.
    + exists chars. exact Ho.
Defined.

(** X6: [createWavUrl] fails, registering nothing and leaving the world as
    it was, when [atob] rejects the string (with [atob]'s error) and when
    the decoded payload is longer than [2^32 - 1] (the [RangeError] of
    [new Array]). *)
Theorem createWavUrl_rejects (env : Env) (pcmBase64 : string) (w : World) :
  (forall msg, atob env pcmBase64 = Fails msg ->
      createWavUrl env pcmBase64 w = (Throw (External msg), w))
  /\ (forall byteCharacters,
         atob env pcmBase64 = Returns byteCharacters ->
         Z.of_nat (List.length byteCharacters) > 2 ^ 32 - 1 ->
         createWavUrl env pcmBase64 w
         = (Throw (External (Some "Invalid array length")), w)).
Proof.
  pose proof (createWavUrl_cases env pcmBase64 w) as H.
  split.
  - intros msg Hatob. rewrite Hatob in H. exact H.
  - intros chars Hatob Hbig. rewrite Hatob in H.
    destruct (Z.leb_spec (Z.of_nat (List.length chars)) (2 ^ 32 - 1)); [lia | exact H].
Qed.

Lemma createWavUrl_rejects_witness :
  createWavUrl (Sample.answering Sample.audioPart) "not base64!" initialWorld
  = (Throw (External (Some "The string to be decoded is not correctly encoded.")),
     initialWorld).
Proof.
  apply (proj1 (createWavUrl_rejects (Sample.answering Sample.audioPart) "not base64!"
                  initialWorld)).
  reflexivity.
Defined.

Lemma of_Z_ToUint8 (v : Z) : byte.of_Z (ToUint8 v) = byte.of_Z v.
Proof.
  apply byte.unsigned_inj. rewrite !byte.unsigned_of_Z.
  unfold byte.wrap, ToUint8. apply Z.mod_mod. discriminate.
Qed.

Lemma wavLayout_tags (byteCharacters : list Z) :
  firstn 4 (wavLayout byteCharacters) = asciiBytes "RIFF"
  /\ firstn 4 (skipn 8 (wavLayout byteCharacters)) = asciiBytes "WAVE"
  /\ firstn 4 (skipn 12 (wavLayout byteCharacters)) = asciiBytes "fmt "
  /\ firstn 4 (skipn 36 (wavLayout byteCharacters)) = asciiBytes "data".
Proof. repeat split. Qed.

Lemma wavLayout_fmt (byteCharacters : list Z) :
  getUintLE (wavLayout byteCharacters) 16 4 = 16
  /\ getUintLE (wavLayout byteCharacters) 20 2 = 1
  /\ getUintLE (wavLayout byteCharacters) 22 2 = 1
  /\ getUintLE (wavLayout byteCharacters) 28 4 = 48000.
Proof. repeat split. Qed.

(** X7: for every payload [createWavUrl] accepts (length [L] up to
    [2^32 - 1]) the header is complete: the tags [RIFF], [WAVE], [fmt ] and
    [data] at offsets 0, 8, 12 and 36; sub-chunk size 16, format code 1 and
    channel count 1 at offsets 16, 20 and 22; byte rate 48000 at offset 28;
    the data size at offset 40 is exactly [L], while the size at offset 4
    is [L + 36] modulo [2^32]. *)
Theorem createWavUrl_every_field (env : Env) (pcmBase64 : string)
  (byteCharacters : list Z) (w : World) :
  atob env pcmBase64 = Returns byteCharacters ->
  Z.of_nat (List.length byteCharacters) <= 2 ^ 32 - 1 ->
  exists bytes,
    createWavUrl env pcmBase64 w
    = (Ok (List.length (objectUrls w)),
       snd (createObjectURL (OfParts bytes "audio/wav") w))
    /\ firstn 4 bytes = asciiBytes "RIFF"
    /\ getUintLE bytes 4 4 = (Z.of_nat (List.length byteCharacters) + 36) mod 2 ^ 32
    /\ firstn 4 (skipn 8 bytes) = asciiBytes "WAVE"
    /\ firstn 4 (skipn 12 bytes) = asciiBytes "fmt "
    /\ getUintLE bytes 16 4 = 16
    /\ getUintLE bytes 20 2 = 1
    /\ getUintLE bytes 22 2 = 1
    /\ getUintLE bytes 28 4 = 48000
    /\ firstn 4 (skipn 36 bytes) = asciiBytes "data"
    /\ getUintLE bytes 40 4 = Z.of_nat (List.length byteCharacters).
Proof.
  intros Hatob Hlen. exists (wavLayout byteCharacters).
  destruct (wavLayout_tags byteCharacters) as (T0 & T8 & T12 & T36).
  destruct (wavLayout_fmt byteCharacters) as (F16 & F20 & F22 & F28).
  repeat split; trivial.
  - rewrite (createWavUrl_run _ _ byteCharacters) by assumption. reflexivity.
  - rewrite wavLayout_riffSize. unfold ToUint32. f_equal. lia.
  - rewrite wavLayout_dataSize. unfold ToUint32. apply Z.mod_small. lia.
Qed.

Lemma createWavUrl_every_field_witness :
  exists bytes,
    createWavUrl (decoding "AQID" [1; 2; 3]) "AQID" initialWorld
    = (Ok 0%nat, snd (createObjectURL (OfParts bytes "audio/wav") initialWorld))
    /\ firstn 4 bytes = asciiBytes "RIFF"
    /\ getUintLE bytes 4 4 = 39
    /\ getUintLE bytes 28 4 = 48000
    /\ getUintLE bytes 40 4 = 3.
Proof.
  destruct (createWavUrl_every_field (decoding "AQID" [1; 2; 3]) "AQID" [1; 2; 3]
              initialWorld)
    as (bytes & H & T0 & S & _ & _ & _ & _ & _ & R & _ & D).
  - reflexivity.
  - vm_compute. discriminate.
  - exists bytes. repeat split; assumption.
Defined.

Lemma map_mod_small (l : list Z) :
  Forall (fun c => 0 <= c < 256) l -> map (fun c => c mod 256) l = l.
Proof.
  induction 1 as [|c rest Hc _ IH]; [reflexivity|].
  cbn [map]. rewrite IH, Z.mod_small by exact Hc. reflexivity.
Qed.

(** X8: the bytes after the 44-byte header are the decoded character codes
    modulo 256; when every code is a byte value, as [atob] produces, reading
    the data section back gives the decoded payload itself. *)
Theorem createWavUrl_payload_round_trip (env : Env) (pcmBase64 : string)
  (byteCharacters : list Z) (w : World) :
  atob env pcmBase64 = Returns byteCharacters ->
  Z.of_nat (List.length byteCharacters) <= 2 ^ 32 - 1 ->
  exists bytes,
    createWavUrl env pcmBase64 w
    = (Ok (List.length (objectUrls w)),
       snd (createObjectURL (OfParts bytes "audio/wav") w))
    /\ map byte.unsigned (skipn 44 bytes) = map (fun c => c mod 256) byteCharacters
    /\ (Forall (fun c => 0 <= c < 256) byteCharacters ->
        map byte.unsigned (skipn 44 bytes) = byteCharacters).
Proof.
  intros Hatob Hlen. exists (wavLayout byteCharacters).
  assert (Hmod : map byte.unsigned (skipn 44 (wavLayout byteCharacters))
                 = map (fun c => c mod 256) byteCharacters).
  { rewrite wavLayout_payload, map_map. apply map_ext. intros c.
    rewrite of_Z_ToUint8, byte.unsigned_of_Z. reflexivity. }
  split; [|split].
  - rewrite (createWavUrl_run _ _ byteCharacters) by assumption. reflexivity.
  - exact Hmod.
  - intros Hall. rewrite Hmod. apply map_mod_small, Hall.
Qed.

Lemma createWavUrl_payload_round_trip_witness :
  exists bytes,
    createWavUrl (decoding "AQID" [1; 2; 3]) "AQID" initialWorld
    = (Ok 0%nat, snd (createObjectURL (OfParts bytes "audio/wav") initialWorld))
    /\ map byte.unsigned (skipn 44 bytes) = [1; 2; 3].
Proof.
  destruct (createWavUrl_payload_round_trip (decoding "AQID" [1; 2; 3]) "AQID"
              [1; 2; 3] initialWorld) as (bytes & H & _ & R).
  - reflexivity.
  - vm_compute. discriminate.
  - exists bytes. split; [exact H|]. apply R.
    repeat constructor; lia.
Defined.

(** ** [writeString] and [fileToGenerativePart] *)

Lemma setUint8_in_bounds (view : list byte) (offset : nat) (v : Z) :
  (offset + 1 <= List.length view)%nat ->
  setUint8 view offset v
  = Ok (firstn offset view ++ [byte.of_Z v] ++ skipn (offset + 1) view)%list.
Proof.
  intros H. unfold setUint8, setBytes. cbn [List.length].
  destruct (Nat.leb_spec (offset + 1) (List.length view)); [|lia].
  rewrite of_Z_ToUint8. reflexivity.
Qed.

Lemma setUint8_out_of_bounds (view : list byte) (offset : nat) (v : Z) :
  (List.length view < offset + 1)%nat ->
  setUint8 view offset v
  = Throw (External (Some "Offset is outside the bounds of the DataView")).
Proof.
  intros H. unfold setUint8, setBytes. cbn [List.length].
  destruct (Nat.leb_spec (offset + 1) (List.length view)); [lia|]. reflexivity.
Qed.

Lemma written_length (view : list byte) (offset : nat) (b : byte) :
  (offset + 1 <= List.length view)%nat ->
  List.length (firstn offset view ++ [b] ++ skipn (offset + 1) view)%list
  = List.length view.
Proof.
  intros H. rewrite !length_app, length_firstn, length_skipn. cbn [List.length]. lia.
Qed.

Lemma writeString_in_bounds (s : string) :
  forall (view : list byte) (offset : nat),
    (offset + String.length s <= List.length view)%nat ->
    writeString view offset s
    = Ok (firstn offset view ++ asciiBytes s
          ++ skipn (offset + String.length s) view)%list.
Proof.
  induction s as [|c rest IH]; intros view offset Hfit.
  - cbn [writeString String.length asciiBytes list_ascii_of_string map app].
    rewrite Nat.add_0_r, firstn_skipn. reflexivity.
  - cbn [String.length] in Hfit.
    cbn [writeString]. rewrite setUint8_in_bounds by lia. cbn [bindR].
    set (b := byte.of_Z (Z.of_nat (nat_of_ascii c))).
    rewrite IH by (rewrite written_length; lia).
    f_equal.
    assert (Hfl : List.length (firstn offset view) = offset)
      by (rewrite length_firstn; lia).
    change (firstn offset view ++ [b] ++ skipn (offset + 1) view)%list
      with (firstn offset view ++ b :: skipn (offset + 1) view)%list.
    rewrite firstn_app, skipn_app, Hfl.
    rewrite firstn_all2 by lia.
    rewrite (skipn_all2 (n := S offset + String.length rest) (firstn offset view))
      by lia.
    replace (S offset - offset)%nat with 1%nat by lia.
    replace (S offset + String.length rest - offset)%nat
      with (S (String.length rest)) by lia.
    cbn [firstn skipn app String.length asciiBytes list_ascii_of_string map].
    rewrite skipn_skipn. fold b.
    replace (String.length rest + (offset + 1))%nat
      with (offset + S (String.length rest))%nat by lia.
    rewrite <- app_assoc. reflexivity.
Qed.

Lemma writeString_out_of_bounds (s : string) :
  forall (view : list byte) (offset : nat),
    (List.length view < offset + String.length s)%nat ->
    (offset <= List.length view)%nat ->
    writeString view offset s
    = Throw (External (Some "Offset is outside the bounds of the DataView")).
Proof.
  induction s as [|c rest IH]; intros view offset Hout Hin.
  - cbn [String.length] in Hout. lia.
  - cbn [String.length] in Hout. cbn [writeString].
    destruct (Nat.le_gt_cases (offset + 1) (List.length view)) as [Hfit|Hno].
    + rewrite setUint8_in_bounds by exact Hfit. cbn [bindR].
      apply IH; rewrite written_length by exact Hfit; lia.
    + rewrite setUint8_out_of_bounds by lia. reflexivity.
Qed.

(** X9: [writeString] overwrites the bytes at [offset] with the character
    codes of the string and nothing else, keeping the length of the buffer,
    when the string fits; when it starts inside the buffer and does not
    fit, it ends in the [RangeError] of the first write past the end. *)
Theorem writeString_bounds (view : list byte) (offset : nat) (s : string) :
  ((offset + String.length s <= List.length view)%nat ->
   exists view',
     writeString view offset s = Ok view'
     /\ List.length view' = List.length view
     /\ firstn offset view' = firstn offset view
     /\ firstn (String.length s) (skipn offset view') = asciiBytes s
     /\ skipn (offset + String.length s) view'
        = skipn (offset + String.length s) view)
  /\ ((List.length view < offset + String.length s)%nat ->
      (offset <= List.length view)%nat ->
      writeString view offset s
      = Throw (External (Some "Offset is outside the bounds of the DataView"))).
Proof.
  split; [|apply writeString_out_of_bounds].
  intros Hfit. eexists. split; [apply writeString_in_bounds, Hfit|].
  assert (Hfl : List.length (firstn offset view) = offset)
    by (rewrite length_firstn; lia).
  assert (Hal : List.length (asciiBytes s) = String.length s).
  { unfold asciiBytes. rewrite length_map. clear.
    induction s as [|c r IH]; cbn; [reflexivity | now rewrite IH]. }
  repeat split.
  - rewrite !length_app, Hfl, Hal, length_skipn. lia.
  - rewrite firstn_app, Hfl, Nat.sub_diag, firstn_all2 by lia.
    cbn [firstn]. apply app_nil_r.
  - rewrite skipn_app, Hfl, Nat.sub_diag, skipn_all2 by lia.
    cbn [skipn app]. rewrite firstn_app, Hal, Nat.sub_diag, firstn_all2 by lia.
    cbn [firstn]. apply app_nil_r.
  - rewrite skipn_app, Hfl, skipn_all2 by lia. cbn [app].
    replace (offset + String.length s - offset)%nat with (String.length s) by lia.
    rewrite skipn_app, Hal, Nat.sub_diag, skipn_all2 by lia. reflexivity.
Qed.

Lemma writeString_bounds_witness :
  (exists view',
      writeString (repeat Byte.x00 6) 1 "WAVE" = Ok view'
      /\ List.length view' = 6%nat
      /\ firstn 4 (skipn 1 view') = asciiBytes "WAVE")
  /\ writeString (repeat Byte.x00 6) 4 "WAVE"
     = Throw (External (Some "Offset is outside the bounds of the DataView")).
Proof.
  destruct (writeString_bounds (repeat Byte.x00 6) 1 "WAVE") as (Hin & _).
  destruct (writeString_bounds (repeat Byte.x00 6) 4 "WAVE") as (_ & Hout).
  split.
  - destruct Hin as (view' & Hw & Hl & _ & Hs & _); [cbn; lia|].
    exists view'. repeat split; assumption.
  - apply Hout; cbn; lia.
Defined.

Lemma split_noComma (s : string) : noComma s = true -> split "," s = [s].
Proof.
  induction s as [|c rest IH]; intros H; [reflexivity|].
  cbn [noComma] in H. apply andb_prop in H. destruct H as [Hc Hr].
  apply negb_true_iff in Hc. cbn [split]. rewrite Hc, (IH Hr). reflexivity.
Qed.

Lemma split_at_comma (h p : string) :
  noComma h = true -> split "," (h ++ String "," p) = h :: split "," p.
Proof.
  induction h as [|c rest IH]; intros H.
  - reflexivity.
  - cbn [noComma] in H. apply andb_prop in H. destruct H as [Hc Hr].
    apply negb_true_iff in Hc.
    change ((String c rest) ++ String "," p) with (String c (rest ++ String "," p)).
    cbn [split]. rewrite Hc, (IH Hr). reflexivity.
Qed.



(** ** The handlers: success, request, retry *)

Lemma startAnalysis_as_settle env w f :
  file (songData w) = Some f ->
  startAnalysis env w
  = startAnalysis_settle (fst (analysisAttempt env f (snd (setState ANALYZING w))))
      (snd (analysisAttempt env f (snd (setState ANALYZING w)))).
Proof.
  intros Hf. rewrite (startAnalysis_run _ _ _ Hf). cbv zeta.
  destruct (fst (analysisAttempt env f _)); reflexivity.
Qed.

Lemma handleTranslate_as_settle env w a :
  analysis (songData w) = Some a ->
  handleTranslate env w
  = handleTranslate_settle
      (fst (translateLyrics env (lyrics a) (targetLanguage (songData w)) (language a)
              (bpm a) (snd (setState ANALYZING w))))
      (snd (translateLyrics env (lyrics a) (targetLanguage (songData w)) (language a)
              (bpm a) (snd (setState ANALYZING w)))).
Proof.
  intros Ha. rewrite (handleTranslate_run _ _ _ Ha). cbv zeta.
  destruct (fst (translateLyrics env _ _ _ _ _)); reflexivity.
Qed.

Lemma handleDubbing_as_settle env w a :
  analysis (songData w) = Some a ->
  translations (songData w) <> [] ->
  handleDubbing env w
  = handleDubbing_settle
      (fst (generateDubbedAudio env (translations (songData w)) (gender a)
              (targetLanguage (songData w))
              (snd ((setIsDubbingLoading true ;; setError None) w))))
      (snd (generateDubbedAudio env (translations (songData w)) (gender a)
              (targetLanguage (songData w))
              (snd ((setIsDubbingLoading true ;; setError None) w)))).
Proof.
  intros Ha Ht. rewrite (handleDubbing_run _ _ _ Ha Ht). cbv zeta.
  destruct (fst (generateDubbedAudio env _ _ _ _)); reflexivity.
Qed.

Lemma startAnalysis_settle_logs o w :
  calls (snd (startAnalysis_settle o w)) = calls w
  /\ objectUrls (snd (startAnalysis_settle o w)) = objectUrls w.
Proof. destruct o; split; reflexivity. Qed.

Lemma handleTranslate_settle_logs o w :
  calls (snd (handleTranslate_settle o w)) = calls w
  /\ objectUrls (snd (handleTranslate_settle o w)) = objectUrls w.
Proof. destruct o; split; reflexivity. Qed.

Lemma handleDubbing_settle_logs o w :
  calls (snd (handleDubbing_settle o w)) = calls w
  /\ objectUrls (snd (handleDubbing_settle o w)) = objectUrls w.
Proof. destruct o; split; reflexivity. Qed.

(** X11: a selected file of at most 10 MiB (the limit itself included) is
    stored with a fresh object URL that stands for it; the error is
    cleared; the state, the other session fields and the request log are as
    before, and the earlier object URLs stay registered. *)
Theorem handleFileUpload_accepts (f : File) (w : World) :
  size f <= 10 * 1024 * 1024 ->
  file (songData (snd (handleFileUpload (Some f) w))) = Some f
  /\ audioUrl (songData (snd (handleFileUpload (Some f) w)))
     = Some (List.length (objectUrls w))
  /\ resolveObjectURL (snd (handleFileUpload (Some f) w)) (List.length (objectUrls w))
     = Some (OfFile f)
  /\ objectUrls (snd (handleFileUpload (Some f) w)) = (objectUrls w ++ [OfFile f])%list
  /\ analysis (songData (snd (handleFileUpload (Some f) w))) = analysis (songData w)
  /\ translations (songData (snd (handleFileUpload (Some f) w)))
     = translations (songData w)
  /\ targetLanguage (songData (snd (handleFileUpload (Some f) w)))
     = targetLanguage (songData w)
  /\ dubbedAudioUrl (songData (snd (handleFileUpload (Some f) w)))
     = dubbedAudioUrl (songData w)
  /\ error (snd (handleFileUpload (Some f) w)) = None
  /\ state (snd (handleFileUpload (Some f) w)) = state w
  /\ calls (snd (handleFileUpload (Some f) w)) = calls w.
Proof.
  intros Hsmall. unfold handleFileUpload.
  destruct (Z.gtb_spec (size f) (10 * 1024 * 1024)) as [Hbig|_]; [lia|].
  repeat split.
  apply (resolve_createObjectURL (OfFile f) w).
Qed.

Lemma handleFileUpload_accepts_witness :
  file (songData (snd (handleFileUpload (Some limitSong) initialWorld))) = Some limitSong
  /\ resolveObjectURL (snd (handleFileUpload (Some limitSong) initialWorld)) 0%nat
     = Some (OfFile limitSong)
  /\ error (snd (handleFileUpload (Some limitSong) initialWorld)) = None.
Proof.
  destruct (handleFileUpload_accepts limitSong initialWorld)
    as (Hf & _ & Hr & _ & _ & _ & _ & _ & He & _).
  - vm_compute. discriminate.
  - split; [exact Hf | split; [exact Hr | exact He]].
Defined.

(** X12: when the awaited work of [startAnalysis] succeeds, the state
    becomes [LYRICS_REVIEW] and [analysis] holds the result; the file, its
    URL, the translations, the target language and the dubbed URL are as
    before, and so is the recorded error: an earlier error message is not
    cleared. *)
Theorem startAnalysis_success (env : Env) (w : World) (f : File) (a : AnalysisResult) :
  file (songData w) = Some f ->
  fst (analysisAttempt env f (snd (setState ANALYZING w))) = Ok a ->
  state (snd (startAnalysis env w)) = LYRICS_REVIEW
  /\ songData (snd (startAnalysis env w)) = applyPatch (PAnalysis a) (songData w)
  /\ analysis (songData (snd (startAnalysis env w))) = Some a
  /\ file (songData (snd (startAnalysis env w))) = Some f
  /\ translations (songData (snd (startAnalysis env w))) = translations (songData w)
  /\ dubbedAudioUrl (songData (snd (startAnalysis env w)))
     = dubbedAudioUrl (songData w)
  /\ error (snd (startAnalysis env w)) = error w
  /\ objectUrls (snd (startAnalysis env w)) = objectUrls w.
Proof.
  intros Hf Hok. rewrite (startAnalysis_as_settle _ _ _ Hf), Hok.
  destruct (analysisAttempt_app env f (snd (setState ANALYZING w)))
    as (Hs & Hd & He & Hl & Hh).
  pose proof (analysisAttempt_urls env f (snd (setState ANALYZING w))) as Hu.
  unfold sameUrls in Hu.
  cbn [startAnalysis_settle bind setSongData setState setError fst snd state songData
         error objectUrls] in *.
  rewrite Hd. cbn [applyPatch analysis file translations dubbedAudioUrl].
  repeat split; assumption.
Qed.

Lemma startAnalysis_success_witness :
  state (snd (startAnalysis (Sample.answering Sample.audioPart)
                (fire Sample.failing StartAnalysis
                   (fire Sample.failing (SelectFile (Some Sample.song)) initialWorld))))
  = LYRICS_REVIEW
  /\ error (snd (startAnalysis (Sample.answering Sample.audioPart)
                   (fire Sample.failing StartAnalysis
                      (fire Sample.failing (SelectFile (Some Sample.song)) initialWorld))))
     = Some "503 Service Unavailable".
Proof.
  destruct (startAnalysis_success (Sample.answering Sample.audioPart)
              (fire Sample.failing StartAnalysis
                 (fire Sample.failing (SelectFile (Some Sample.song)) initialWorld))
              Sample.song Sample.result)
    as (Hs & _ & _ & _ & _ & _ & He & _).
  - reflexivity.
  - reflexivity.
  - split; [exact Hs | exact He].
Defined.

(** X13: with a credential and a file whose data URL reads as
    [head,payload], [startAnalysis] sends exactly one request, and it
    carries the MIME type of the selected file and the payload after the
    comma; this holds whether the analysis then succeeds or fails. *)
Theorem startAnalysis_request (env : Env) (w : World) (f : File) (h p : string) :
  file (songData w) = Some f ->
  readAsDataURL env f = LoadEnd (Some (h ++ "," ++ p)) ->
  noComma h = true -> noComma p = true ->
  truthy (API_KEY env) = true ->
  calls (snd (startAnalysis env w)) = (calls w ++ [AnalyzeRequest (type f) (Some p)])%list.
Proof.
  intros Hf Hr Hh Hp Hkey. rewrite (startAnalysis_as_settle _ _ _ Hf).
  rewrite (proj1 (startAnalysis_settle_logs _ _)).
  unfold analysisAttempt, bind, fileToGenerativePart. rewrite Hr.
  change (h ++ "," ++ p) with (h ++ String "," p).
  rewrite (split_at_comma _ _ Hh), (split_noComma _ Hp).
  cbn [nth_error ret]. rewrite (analyzeAudio_run _ _ _ _ Hkey).
  destruct (analysisOutcome env _); reflexivity.
Qed.

Lemma startAnalysis_request_witness :
  calls (snd (startAnalysis Sample.failing
                (fire Sample.failing (SelectFile (Some Sample.song)) initialWorld)))
  = [AnalyzeRequest "audio/mpeg" (Some "QUJD")].
Proof.
  apply (startAnalysis_request Sample.failing
           (fire Sample.failing (SelectFile (Some Sample.song)) initialWorld)
           Sample.song "data:audio/mpeg;base64" "QUJD"); reflexivity.
Defined.

(** X14: [handleTranslate] with an analysis present and a credential sends
    exactly one request, built from the stored lyrics, the selected target
    language, the detected language and the tempo; when the translation
    succeeds the state becomes [DUBBING], [translations] holds the result
    (even an empty one), and the other session fields and the recorded
    error are as before. *)
Theorem handleTranslate_success (env : Env) (w : World) (a : AnalysisResult)
  (t : list TranslatedLine) :
  analysis (songData w) = Some a ->
  truthy (API_KEY env) = true ->
  fst (translateLyrics env (lyrics a) (targetLanguage (songData w)) (language a)
         (bpm a) (snd (setState ANALYZING w))) = Ok t ->
  calls (snd (handleTranslate env w))
  = (calls w ++ [TranslateRequest (lyrics a) (targetLanguage (songData w))
                   (language a) (bpm a)])%list
  /\ state (snd (handleTranslate env w)) = DUBBING
  /\ songData (snd (handleTranslate env w)) = applyPatch (PTranslations t) (songData w)
  /\ translations (songData (snd (handleTranslate env w))) = t
  /\ analysis (songData (snd (handleTranslate env w))) = Some a
  /\ dubbedAudioUrl (songData (snd (handleTranslate env w)))
     = dubbedAudioUrl (songData w)
  /\ error (snd (handleTranslate env w)) = error w
  /\ objectUrls (snd (handleTranslate env w)) = objectUrls w.
Proof.
  intros Ha Hkey Hok. rewrite (handleTranslate_as_settle _ _ _ Ha), Hok.
  destruct (translateLyrics_app env (lyrics a) (targetLanguage (songData w))
              (language a) (bpm a) (snd (setState ANALYZING w)))
    as (Hs & Hd & He & Hl & Hh).
  pose proof (translateLyrics_urls env (lyrics a) (targetLanguage (songData w))
                (language a) (bpm a) (snd (setState ANALYZING w))) as Hu.
  unfold sameUrls in Hu.
  split.
  - rewrite (proj1 (handleTranslate_settle_logs _ _)).
    rewrite (translateLyrics_run _ _ _ _ _ _ Hkey).
    destruct (translationOutcome env _); reflexivity.
  - cbn [handleTranslate_settle bind setSongData setState setError fst snd state
           songData error objectUrls] in *.
    rewrite Hd. cbn [applyPatch analysis file translations dubbedAudioUrl].
    repeat split; assumption.
Qed.

Lemma handleTranslate_success_witness :
  calls (snd (handleTranslate (Sample.answering Sample.audioPart) analysedSession))
  = (calls analysedSession
     ++ [TranslateRequest ["hello"; "world"] "Spanish" "English" 120])%list
  /\ state (snd (handleTranslate (Sample.answering Sample.audioPart) analysedSession))
     = DUBBING
  /\ translations
       (songData (snd (handleTranslate (Sample.answering Sample.audioPart)
                         analysedSession))) = Sample.lines.
Proof.
  destruct (handleTranslate_success (Sample.answering Sample.audioPart) analysedSession
              Sample.result Sample.lines)
    as (Hc & Hs & _ & Ht & _).
  - reflexivity.
  - reflexivity.
  - reflexivity.
  - split; [exact Hc | split; [exact Hs | exact Ht]].
Defined.

(** X15: choosing a target language changes only [targetLanguage] and
    sends nothing; a translation started afterwards asks for exactly that
    language. *)
Theorem selected_language_is_requested (env : Env) (w : World) (a : AnalysisResult)
  (code : string) :
  analysis (songData w) = Some a ->
  truthy (API_KEY env) = true ->
  songData (snd (selectTargetLanguage code w))
  = applyPatch (PTargetLanguage code) (songData w)
  /\ state (snd (selectTargetLanguage code w)) = state w
  /\ calls (snd (selectTargetLanguage code w)) = calls w
  /\ calls (snd (handleTranslate env (snd (selectTargetLanguage code w))))
     = (calls w ++ [TranslateRequest (lyrics a) code (language a) (bpm a)])%list.
Proof.
  intros Ha Hkey. repeat split.
  assert (Ha' : analysis (songData (snd (selectTargetLanguage code w))) = Some a)
    by exact Ha.
  rewrite (handleTranslate_as_settle _ _ _ Ha').
  rewrite (proj1 (handleTranslate_settle_logs _ _)).
  rewrite (translateLyrics_run _ _ _ _ _ _ Hkey).
  destruct (translationOutcome env _); reflexivity.
Qed.

Lemma selected_language_is_requested_witness :
  calls (snd (handleTranslate (Sample.answering Sample.audioPart)
                (snd (selectTargetLanguage "Japanese" analysedSession))))
  = (calls analysedSession
     ++ [TranslateRequest ["hello"; "world"] "Japanese" "English" 120])%list.
Proof.
  destruct (selected_language_is_requested (Sample.answering Sample.audioPart)
              analysedSession Sample.result "Japanese") as (_ & _ & _ & H).
  - reflexivity.
  - reflexivity.
  - exact H.
Defined.

(** X16: when [generateDubbedAudio] succeeds, [handleDubbing] ends in
    [COMPLETE] with [dubbedAudioUrl] set to a URL that stands for a WAV blob
    laid out as the encoder lays it out; the error is cleared, the loading
    flag is off, and the other session fields are as before. *)
Theorem handleDubbing_success (env : Env) (w : World) (a : AnalysisResult)
  (url : ObjectURL) :
  analysis (songData w) = Some a ->
  translations (songData w) <> [] ->
  fst (generateDubbedAudio env (translations (songData w)) (gender a)
         (targetLanguage (songData w))
         (snd ((setIsDubbingLoading true ;; setError None) w))) = Ok url ->
  state (snd (handleDubbing env w)) = COMPLETE
  /\ songData (snd (handleDubbing env w)) = applyPatch (PDubbedAudioUrl url) (songData w)
  /\ dubbedAudioUrl (songData (snd (handleDubbing env w))) = Some url
  /\ (exists byteCharacters,
         resolveObjectURL (snd (handleDubbing env w)) url
         = Some (OfParts (wavLayout byteCharacters) "audio/wav"))
  /\ error (snd (handleDubbing env w)) = None
  /\ isDubbingLoading (snd (handleDubbing env w)) = false.
Proof.
  intros Ha Ht Hok. rewrite (handleDubbing_as_settle _ _ _ Ha Ht), Hok.
  set (w1 := snd ((setIsDubbingLoading true ;; setError None) w)) in *.
  destruct (generateDubbedAudio_app env (translations (songData w)) (gender a)
              (targetLanguage (songData w)) w1) as (Hs & Hd & He & Hl & Hh).
  pose proof (generateDubbedAudio_registry env (translations (songData w)) (gender a)
                (targetLanguage (songData w)) w1) as Hreg.
  rewrite Hok in Hreg.
  destruct Hreg as (response & d & chars & _ & _ & _ & _ & _ & _ & Hu & Ho).
  split; [reflexivity|].
  split; [cbn [handleDubbing_settle bind setSongData setState setIsDubbingLoading fst snd
                 songData]; rewrite Hd; reflexivity|].
  split; [cbn [handleDubbing_settle bind setSongData setState setIsDubbingLoading fst snd
                 songData]; rewrite Hd; reflexivity|].
  split.
  - exists chars. unfold resolveObjectURL.
    rewrite (proj2 (handleDubbing_settle_logs _ _)), Ho, Hu.
    change (objectUrls w1) with (objectUrls w).
    rewrite nth_error_app2 by lia. rewrite Nat.sub_diag. reflexivity.
  - split.
    + cbn [handleDubbing_settle bind setSongData setState setIsDubbingLoading fst snd
             error]. rewrite He. reflexivity.
    + reflexivity.
Qed.

Lemma handleDubbing_success_witness :
  state (snd (handleDubbing (Sample.answering Sample.audioPart) dubbingSession))
  = COMPLETE
  /\ dubbedAudioUrl
       (songData (snd (handleDubbing (Sample.answering Sample.audioPart) dubbingSession)))
     = Some 1%nat
  /\ isDubbingLoading
       (snd (handleDubbing (Sample.answering Sample.audioPart) dubbingSession)) = false.
Proof.
  destruct (handleDubbing_success (Sample.answering Sample.audioPart) dubbingSession
              Sample.result 1%nat) as (Hs & _ & Hd & _ & _ & Hl).
  - reflexivity.
  - discriminate.
  - reflexivity.
  - split; [exact Hs | split; [exact Hd | exact Hl]].
Defined.

(** X17: when [generateDubbedAudio] fails with any error, [handleDubbing]
    leaves the state and the session data as they were, records the
    error's message (or the fallback text), turns the loading flag off and
    registers no object URL. *)
Theorem handleDubbing_failure (env : Env) (w : World) (a : AnalysisResult)
  (e : JsError) :
  analysis (songData w) = Some a ->
  translations (songData w) <> [] ->
  fst (generateDubbedAudio env (translations (songData w)) (gender a)
         (targetLanguage (songData w))
         (snd ((setIsDubbingLoading true ;; setError None) w))) = Throw e ->
  state (snd (handleDubbing env w)) = state w
  /\ songData (snd (handleDubbing env w)) = songData w
  /\ error (snd (handleDubbing env w))
     = Some (or_else (message e) "Dubbing generation failed.")
  /\ or_else (message e) "Dubbing generation failed." <> ""
  /\ isDubbingLoading (snd (handleDubbing env w)) = false
  /\ objectUrls (snd (handleDubbing env w)) = objectUrls w.
Proof.
  intros Ha Ht Hfail. rewrite (handleDubbing_as_settle _ _ _ Ha Ht), Hfail.
  set (w1 := snd ((setIsDubbingLoading true ;; setError None) w)) in *.
  destruct (generateDubbedAudio_app env (translations (songData w)) (gender a)
              (targetLanguage (songData w)) w1) as (Hs & Hd & He & Hl & Hh).
  pose proof (generateDubbedAudio_registry env (translations (songData w)) (gender a)
                (targetLanguage (songData w)) w1) as Hreg.
  rewrite Hfail in Hreg.
  cbn [handleDubbing_settle bind setError setIsDubbingLoading fst snd state songData
         error isDubbingLoading objectUrls].
  repeat split; try assumption.
  destruct (message e) as [[|c m]|]; discriminate.
Qed.

Lemma handleDubbing_failure_witness :
  state (snd (handleDubbing Sample.failing dubbingSession)) = DUBBING
  /\ error (snd (handleDubbing Sample.failing dubbingSession))
     = Some "503 Service Unavailable"
  /\ isDubbingLoading (snd (handleDubbing Sample.failing dubbingSession)) = false.
Proof.
  destruct (handleDubbing_failure Sample.failing dubbingSession Sample.result
              (External (Some "503 Service Unavailable")))
    as (Hs & _ & He & _ & Hl & _).
  - reflexivity.
  - discriminate.
  - reflexivity.
  - split; [exact Hs | split; [exact He | exact Hl]].
Defined.

(** ** What a handler leaves behind *)

Lemma startAnalysis_summary env w f :
  file (songData w) = Some f ->
  isDubbingLoading (snd (startAnalysis env w)) = isDubbingLoading w
  /\ objectUrls (snd (startAnalysis env w)) = objectUrls w
  /\ match fst (analysisAttempt env f (snd (setState ANALYZING w))) with
     | Ok a =>
         state (snd (startAnalysis env w)) = LYRICS_REVIEW
         /\ songData (snd (startAnalysis env w)) = applyPatch (PAnalysis a) (songData w)
     | Throw e =>
         state (snd (startAnalysis env w)) = IDLE
         /\ songData (snd (startAnalysis env w)) = songData w
     end.
Proof.
  intros Hf. rewrite (startAnalysis_as_settle _ _ _ Hf).
  destruct (analysisAttempt_app env f (snd (setState ANALYZING w)))
    as (Hs & Hd & He & Hl & Hh).
  pose proof (analysisAttempt_urls env f (snd (setState ANALYZING w))) as Hu.
  unfold sameUrls in Hu.
  destruct (fst (analysisAttempt env f (snd (setState ANALYZING w))));
    cbn [startAnalysis_settle bind setSongData setState setError fst snd state songData
           isDubbingLoading objectUrls] in *;
    rewrite Hd; repeat split; assumption.
Qed.

Lemma handleTranslate_summary env w a :
  analysis (songData w) = Some a ->
  isDubbingLoading (snd (handleTranslate env w)) = isDubbingLoading w
  /\ objectUrls (snd (handleTranslate env w)) = objectUrls w
  /\ match fst (translateLyrics env (lyrics a) (targetLanguage (songData w))
                  (language a) (bpm a) (snd (setState ANALYZING w))) with
     | Ok t =>
         state (snd (handleTranslate env w)) = DUBBING
         /\ songData (snd (handleTranslate env w))
            = applyPatch (PTranslations t) (songData w)
     | Throw e =>
         state (snd (handleTranslate env w)) = LYRICS_REVIEW
         /\ songData (snd (handleTranslate env w)) = songData w
     end.
Proof.
  intros Ha. rewrite (handleTranslate_as_settle _ _ _ Ha).
  destruct (translateLyrics_app env (lyrics a) (targetLanguage (songData w))
              (language a) (bpm a) (snd (setState ANALYZING w)))
    as (Hs & Hd & He & Hl & Hh).
  pose proof (translateLyrics_urls env (lyrics a) (targetLanguage (songData w))
                (language a) (bpm a) (snd (setState ANALYZING w))) as Hu.
  unfold sameUrls in Hu.
  destruct (fst (translateLyrics env _ _ _ _ _));
    cbn [handleTranslate_settle bind setSongData setState setError fst snd state songData
           isDubbingLoading objectUrls] in *;
    rewrite Hd; repeat split; assumption.
Qed.

Lemma handleDubbing_summary env w a :
  analysis (songData w) = Some a ->
  translations (songData w) <> [] ->
  isDubbingLoading (snd (handleDubbing env w)) = false
  /\ match fst (generateDubbedAudio env (translations (songData w)) (gender a)
                  (targetLanguage (songData w))
                  (snd ((setIsDubbingLoading true ;; setError None) w))) with
     | Ok url =>
         state (snd (handleDubbing env w)) = COMPLETE
         /\ songData (snd (handleDubbing env w))
            = applyPatch (PDubbedAudioUrl url) (songData w)
         /\ url = List.length (objectUrls w)
         /\ exists byteCharacters,
              objectUrls (snd (handleDubbing env w))
              = (objectUrls w ++ [OfParts (wavLayout byteCharacters) "audio/wav"])%list
     | Throw e =>
         state (snd (handleDubbing env w)) = state w
         /\ songData (snd (handleDubbing env w)) = songData w
         /\ objectUrls (snd (handleDubbing env w)) = objectUrls w
     end.
Proof.
  intros Ha Ht. rewrite (handleDubbing_as_settle _ _ _ Ha Ht).
  set (w1 := snd ((setIsDubbingLoading true ;; setError None) w)) in *.
  destruct (generateDubbedAudio_app env (translations (songData w)) (gender a)
              (targetLanguage (songData w)) w1) as (Hs & Hd & He & Hl & Hh).
  pose proof (generateDubbedAudio_registry env (translations (songData w)) (gender a)
                (targetLanguage (songData w)) w1) as Hreg.
  split; [destruct (fst (generateDubbedAudio env _ _ _ _)); reflexivity|].
  destruct (fst (generateDubbedAudio env _ _ _ _)) as [url|e].
  - destruct Hreg as (response & d & chars & _ & _ & _ & _ & _ & _ & Hu & Ho).
    cbn [handleDubbing_settle bind setSongData setState setIsDubbingLoading fst snd state
           songData objectUrls].
    rewrite Hd. repeat split; [exact Hu|]. exists chars. exact Ho.
  - cbn [handleDubbing_settle bind setError setIsDubbingLoading fst snd state songData
           objectUrls].
    repeat split; assumption.
Qed.

Lemma AppState_eqb_refl (a : AppState) : AppState_eqb a a = true.
Proof. destruct a; reflexivity. Qed.

(** X18: a failed step can be tried again: when the awaited work of
    [startAnalysis], [handleTranslate] or [handleDubbing] fails in a world
    where its control is on the page, the same control is on the page
    afterwards. *)
Theorem failed_step_can_be_retried (env : Env) (w : World) (e : JsError) :
  (forall f,
      enabled w StartAnalysis = true ->
      file (songData w) = Some f ->
      fst (analysisAttempt env f (snd (setState ANALYZING w))) = Throw e ->
      enabled (fire env StartAnalysis w) StartAnalysis = true)
  /\ (forall a,
         enabled w StartTranslation = true ->
         analysis (songData w) = Some a ->
         fst (translateLyrics env (lyrics a) (targetLanguage (songData w)) (language a)
                (bpm a) (snd (setState ANALYZING w))) = Throw e ->
         enabled (fire env StartTranslation w) StartTranslation = true)
  /\ (forall a,
         enabled w StartSynthesis = true ->
         analysis (songData w) = Some a ->
         translations (songData w) <> [] ->
         fst (generateDubbedAudio env (translations (songData w)) (gender a)
                (targetLanguage (songData w))
                (snd ((setIsDubbingLoading true ;; setError None) w))) = Throw e ->
         enabled (fire env StartSynthesis w) StartSynthesis = true).
Proof.
  unfold fire. cbn [handler enabled]. split; [|split].
  - intros f Hen Hf Hfail.
    destruct (startAnalysis_summary env w f Hf) as (_ & _ & H). rewrite Hfail in H.
    destruct H as (Hs & Hd). rewrite Hs, Hd, Hf. reflexivity.
  - intros a Hen Ha Hfail.
    destruct (handleTranslate_summary env w a Ha) as (_ & _ & H). rewrite Hfail in H.
    destruct H as (Hs & Hd). rewrite Hs, Hd, Ha. reflexivity.
  - intros a Hen Ha Ht Hfail.
    destruct (handleDubbing_summary env w a Ha Ht) as (_ & H). rewrite Hfail in H.
    destruct H as (Hs & _). rewrite Hs. exact Hen.
Qed.

Lemma failed_step_can_be_retried_witness :
  enabled (fire Sample.failing StartAnalysis
             (fire Sample.failing (SelectFile (Some Sample.song)) initialWorld))
    StartAnalysis = true
  /\ enabled (fire Sample.failing StartTranslation analysedSession) StartTranslation = true
  /\ enabled (fire Sample.failing StartSynthesis dubbingSession) StartSynthesis = true.
Proof.
  destruct (failed_step_can_be_retried Sample.failing
              (fire Sample.failing (SelectFile (Some Sample.song)) initialWorld)
              (External (Some "503 Service Unavailable"))) as (H1 & _ & _).
  destruct (failed_step_can_be_retried Sample.failing analysedSession
              (External (Some "503 Service Unavailable"))) as (_ & H2 & _).
  destruct (failed_step_can_be_retried Sample.failing dubbingSession
              (External (Some "503 Service Unavailable"))) as (_ & _ & H3).
  split; [apply (H1 Sample.song); reflexivity|].
  split; [apply (H2 Sample.result); reflexivity|].
  apply (H3 Sample.result); [reflexivity | reflexivity | discriminate | reflexivity].
Defined.

(** X19: without a credential no handler sends a request: [handleTranslate]
    and [handleDubbing], and [startAnalysis] once the file has been read,
    record the missing-key message and go back to (or stay in) the state
    they fall back to on any failure. *)
Theorem handlers_without_credential (env : Env) (w : World) :
  truthy (API_KEY env) = false ->
  (forall f r,
      file (songData w) = Some f -> readAsDataURL env f = LoadEnd (Some r) ->
      calls (snd (startAnalysis env w)) = calls w
      /\ state (snd (startAnalysis env w)) = IDLE
      /\ error (snd (startAnalysis env w)) = message MissingApiKey)
  /\ (forall a,
         analysis (songData w) = Some a ->
         calls (snd (handleTranslate env w)) = calls w
         /\ state (snd (handleTranslate env w)) = LYRICS_REVIEW
         /\ error (snd (handleTranslate env w)) = message MissingApiKey)
  /\ (forall a,
         analysis (songData w) = Some a -> translations (songData w) <> [] ->
         calls (snd (handleDubbing env w)) = calls w
         /\ state (snd (handleDubbing env w)) = state w
         /\ error (snd (handleDubbing env w)) = message MissingApiKey
         /\ isDubbingLoading (snd (handleDubbing env w)) = false).
Proof.
  intros Hkey. split; [|split].
  - intros f r Hf Hr. rewrite (startAnalysis_as_settle _ _ _ Hf).
    unfold analysisAttempt, bind, fileToGenerativePart. rewrite Hr.
    cbn [ret]. rewrite (analyzeAudio_unconfigured _ _ _ _ Hkey).
    repeat split.
  - intros a Ha. rewrite (handleTranslate_as_settle _ _ _ Ha).
    rewrite (translateLyrics_unconfigured _ _ _ _ _ _ Hkey). repeat split.
  - intros a Ha Ht. rewrite (handleDubbing_as_settle _ _ _ Ha Ht).
    rewrite (generateDubbedAudio_unconfigured _ _ _ _ _ Hkey). repeat split.
Qed.

Lemma handlers_without_credential_witness :
  calls (snd (handleTranslate unconfigured analysedSession)) = calls analysedSession
  /\ state (snd (handleTranslate unconfigured analysedSession)) = LYRICS_REVIEW
  /\ error (snd (handleTranslate unconfigured analysedSession))
     = Some "API Key not found. Please set REACT_APP_GEMINI_API_KEY or ensure process.env.API_KEY is available.".
Proof.
  destruct (handlers_without_credential unconfigured analysedSession) as (_ & H & _).
  - reflexivity.
  - apply (H Sample.result). reflexivity.
Defined.

(** ** The session between triggers *)

Lemma extends_refl {A} (l : list A) : extends l l.
Proof. exists []. symmetry. apply app_nil_r. Qed.

Lemma extends_trans {A} (l1 l2 l3 : list A) :
  extends l1 l2 -> extends l2 l3 -> extends l1 l3.
Proof.
  intros [m1 ->] [m2 ->]. exists (m1 ++ m2)%list. symmetry. apply app_assoc.
Qed.

Lemma extends_nth_error {A} (l0 l : list A) (n : nat) (a : A) :
  extends l0 l -> nth_error l0 n = Some a -> nth_error l n = Some a.
Proof.
  intros [more ->] H. rewrite nth_error_app1; [exact H|].
  apply nth_error_Some. congruence.
Qed.

Lemma fileRegistered_kept (w w' : World) :
  file (songData w') = file (songData w) ->
  audioUrl (songData w') = audioUrl (songData w) ->
  extends (objectUrls w) (objectUrls w') ->
  fileRegistered w -> fileRegistered w'.
Proof.
  unfold fileRegistered, resolveObjectURL. intros Hf Hu Hext. rewrite Hf, Hu.
  destruct (file (songData w)), (audioUrl (songData w)); trivial.
  apply extends_nth_error, Hext.
Qed.

Lemma settled_kept (w w' : World) :
  state w' = state w -> songData w' = songData w ->
  isDubbingLoading w' = isDubbingLoading w ->
  extends (objectUrls w) (objectUrls w') ->
  settled w -> settled w'.
Proof.
  intros Hs Hd Hl Hext (Hl0 & Hreg & Hdata).
  split; [congruence | split].
  - apply (fileRegistered_kept w); [rewrite Hd; reflexivity | rewrite Hd; reflexivity
                                    | exact Hext | exact Hreg].
  - rewrite Hs, Hd. destruct (state w); try exact Hdata.
    destruct Hdata as (Hf & Ha & Ht & url & chars & Hu & Hr).
    repeat split; try assumption. exists url, chars. split; [exact Hu|].
    apply (extends_nth_error _ _ _ _ Hext Hr).
Qed.

Lemma handleFileUpload_settled files0 w :
  state w = IDLE -> settled w -> settled (snd (handleFileUpload files0 w)).
Proof.
  intros Hst Hs. destruct files0 as [f|]; [|exact Hs].
  unfold handleFileUpload. destruct (size f >? 10 * 1024 * 1024)%Z.
  - apply (settled_kept w); try reflexivity; [apply extends_refl | exact Hs].
  - destruct Hs as (Hl & Hreg & Hdata). rewrite Hst in Hdata.
    split; [exact Hl | split].
    + apply (resolve_createObjectURL (OfFile f) w).
    + cbn [bind createObjectURL setSongData setError fst snd state songData applyPatch
             analysis translations dubbedAudioUrl].
      rewrite Hst. exact Hdata.
Qed.

Lemma startAnalysis_settled env w :
  state w = IDLE -> settled w -> settled (snd (startAnalysis env w)).
Proof.
  intros Hst Hs. pose proof Hs as (Hl & Hreg & Hdata). rewrite Hst in Hdata.
  destruct Hdata as (Ha & Ht & Hd).
  assert (Hcases : file (songData w) = None \/ exists f, file (songData w) = Some f)
    by (destruct (file (songData w)); eauto).
  destruct Hcases as [Hf|(f & Hf)].
  { rewrite (startAnalysis_noop _ _ Hf). exact Hs. }
  destruct (startAnalysis_summary env w f Hf) as (Hl' & Hu & Hcase).
  destruct (fst (analysisAttempt env f _)) as [a|e]; destruct Hcase as (Hs' & Hd').
  - split; [congruence | split].
    + apply (fileRegistered_kept w); [rewrite Hd'; reflexivity | rewrite Hd'; reflexivity
                                      | rewrite Hu; apply extends_refl | exact Hreg].
    + rewrite Hs', Hd'. cbn [applyPatch file analysis translations dubbedAudioUrl].
      rewrite Hf. auto.
  - apply (settled_kept w); [congruence | exact Hd' | exact Hl'
                             | rewrite Hu; apply extends_refl | exact Hs].
Qed.

Lemma selectTargetLanguage_settled code w :
  settled w -> settled (snd (selectTargetLanguage code w)).
Proof. intros H. exact H. Qed.

Lemma isSome_inv {A} (o : option A) : isSome o = true -> exists a, o = Some a.
Proof. destruct o as [a|]; [eauto | discriminate]. Qed.

Lemma handleTranslate_settled env w :
  state w = LYRICS_REVIEW -> settled w -> settled (snd (handleTranslate env w)).
Proof.
  intros Hst Hs. pose proof Hs as (Hl & Hreg & Hdata). rewrite Hst in Hdata.
  destruct Hdata as (Hf & Ht & Hd).
  assert (Hcases : analysis (songData w) = None
                   \/ exists a, analysis (songData w) = Some a)
    by (destruct (analysis (songData w)); eauto).
  destruct Hcases as [Han|(a & Han)].
  { rewrite (handleTranslate_noop _ _ Han). exact Hs. }
  destruct (handleTranslate_summary env w a Han) as (Hl' & Hu & Hcase).
  destruct (fst (translateLyrics env _ _ _ _ _)) as [t|e]; destruct Hcase as (Hs' & Hd').
  - split; [congruence | split].
    + apply (fileRegistered_kept w); [rewrite Hd'; reflexivity | rewrite Hd'; reflexivity
                                      | rewrite Hu; apply extends_refl | exact Hreg].
    + rewrite Hs', Hd'. cbn [applyPatch file analysis translations dubbedAudioUrl].
      rewrite Han. auto.
  - apply (settled_kept w); [congruence | exact Hd' | exact Hl'
                             | rewrite Hu; apply extends_refl | exact Hs].
Qed.

Lemma handleDubbing_settled env w :
  state w = DUBBING -> settled w -> settled (snd (handleDubbing env w)).
Proof.
  intros Hst Hs. pose proof Hs as (Hl & Hreg & Hdata). rewrite Hst in Hdata.
  destruct Hdata as (Hf & Ha & Hd).
  destruct (isSome_inv _ Ha) as (a & Han).
  assert (Hcases : translations (songData w) = [] \/ translations (songData w) <> [])
    by (destruct (translations (songData w)); [left; reflexivity | right; discriminate]).
  destruct Hcases as [Htr|Hne].
  { rewrite handleDubbing_noop by (right; exact Htr). exact Hs. }
  destruct (handleDubbing_summary env w a Han Hne) as (Hl' & Hcase).
  destruct (fst (generateDubbedAudio env _ _ _ _)) as [url|e].
  - destruct Hcase as (Hs' & Hd' & Hurl & chars & Ho).
    split; [exact Hl' | split].
    + apply (fileRegistered_kept w); [rewrite Hd'; reflexivity | rewrite Hd'; reflexivity
                                      | rewrite Ho; eexists; reflexivity | exact Hreg].
    + rewrite Hs', Hd'.
      cbn [applyPatch file analysis translations dubbedAudioUrl].
      repeat split; [exact Hf | exact Ha | exact Hne |].
      exists url, chars. split; [reflexivity|].
      unfold resolveObjectURL. rewrite Ho, Hurl.
      rewrite nth_error_app2 by lia. rewrite Nat.sub_diag. reflexivity.
  - destruct Hcase as (Hs' & Hd' & Ho).
    apply (settled_kept w); [exact Hs' | exact Hd' | congruence
                             | rewrite Ho; apply extends_refl | exact Hs].
Qed.

Lemma resetApp_settled w : settled (snd (resetApp w)).
Proof. repeat split. Qed.

Lemma fire_settled env t w :
  enabled w t = true -> settled w -> settled (fire env t w).
Proof.
  intros Hen Hs. unfold fire. destruct t; cbn [handler enabled] in *.
  - apply handleFileUpload_settled; [apply AppState_eqb_eq, Hen | exact Hs].
  - apply andb_prop in Hen. destruct Hen as (Hen & _).
    apply startAnalysis_settled; [apply AppState_eqb_eq, Hen | exact Hs].
  - apply selectTargetLanguage_settled, Hs.
  - apply andb_prop in Hen. destruct Hen as (Hen & _).
    apply handleTranslate_settled; [apply AppState_eqb_eq, Hen | exact Hs].
  - apply handleDubbing_settled; [apply AppState_eqb_eq, Hen | exact Hs].
  - apply resetApp_settled.
Qed.

Lemma settled_reachable w : reachable w -> settled w.
Proof.
  induction 1 as [|w env t Hw IH Hen].
  - repeat split.
  - apply fire_settled; assumption.
Qed.

(** X20: between two triggers of an execution the session is never in
    [ANALYZING] or [ERROR] and the loading flag is off; the URL of the
    source file is held exactly when the file is, and stands for it; and
    the data follow the state: no analysis, no translation and no dubbed
    URL in [IDLE]; a file, no translation and no dubbed URL in
    [LYRICS_REVIEW]; a file and an analysis in [DUBBING], which the guard
    of [handleTranslate] ensures; and in [COMPLETE] also translated lines
    and a dubbed-audio URL that stands for an encoded WAV.  Whether
    [LYRICS_REVIEW] has an analysis depends on what the service answered,
    and is not part of the statement. *)
Theorem session_follows_state (w : World) :
  reachable w ->
  settled w
  /\ state w <> ANALYZING /\ state w <> ERROR
  /\ (state w = DUBBING -> isSome (analysis (songData w)) = true)
  /\ (state w = COMPLETE -> isSome (dubbedAudioUrl (songData w)) = true).
Proof.
  intros Hw. pose proof (settled_reachable w Hw) as Hs.
  split; [exact Hs|]. destruct Hs as (_ & _ & Hdata).
  destruct (state w); try contradiction; repeat split; try discriminate.
  - intros _. apply Hdata.
  - intros _. destruct Hdata as (_ & _ & _ & url & chars & -> & _). reflexivity.
Qed.

Lemma completeSession_reachable : reachable completeSession.
Proof.
  unfold completeSession. apply reachable_fire; [|reflexivity].
  apply dubbingSession_reachable.
Qed.

Lemma session_follows_state_witness :
  state completeSession = COMPLETE
  /\ settled completeSession
  /\ isSome (dubbedAudioUrl (songData completeSession)) = true.
Proof.
  destruct (session_follows_state completeSession completeSession_reachable)
    as (Hs & _ & _ & _ & Hc).
  split; [reflexivity | split; [exact Hs | apply Hc; reflexivity]].
Defined.

(** ** The registry and the request log over an execution *)

Lemma handleDubbing_extends env w :
  extends (objectUrls w) (objectUrls (snd (handleDubbing env w))).
Proof.
  assert (Hcases : (analysis (songData w) = None \/ translations (songData w) = [])
                   \/ exists a, analysis (songData w) = Some a
                                /\ translations (songData w) <> []).
  { destruct (analysis (songData w)) as [a|]; [|left; left; reflexivity].
    destruct (translations (songData w)); [left; right; reflexivity|].
    right. exists a. split; [reflexivity | discriminate]. }
  destruct Hcases as [Hno|(a & Ha & Ht)].
  - rewrite (handleDubbing_noop _ _ Hno). apply extends_refl.
  - destruct (handleDubbing_summary env w a Ha Ht) as (_ & Hcase).
    destruct (fst (generateDubbedAudio env _ _ _ _)).
    + destruct Hcase as (_ & _ & _ & chars & ->). eexists. reflexivity.
    + destruct Hcase as (_ & _ & ->). apply extends_refl.
Qed.

Lemma fire_extends env t w : extends (objectUrls w) (objectUrls (fire env t w)).
Proof.
  unfold fire. destruct t; cbn [handler].
  - destruct files0 as [f|]; [|apply extends_refl].
    unfold handleFileUpload. destruct (size f >? 10 * 1024 * 1024)%Z.
    + apply extends_refl.
    + exists [OfFile f]. reflexivity.
  - destruct (file (songData w)) as [f|] eqn:Hf.
    + destruct (startAnalysis_summary env w f Hf) as (_ & -> & _). apply extends_refl.
    + rewrite (startAnalysis_noop _ _ Hf). apply extends_refl.
  - apply extends_refl.
  - destruct (analysis (songData w)) as [a|] eqn:Ha.
    + destruct (handleTranslate_summary env w a Ha) as (_ & -> & _). apply extends_refl.
    + rewrite (handleTranslate_noop _ _ Ha). apply extends_refl.
  - apply handleDubbing_extends.
  - apply extends_refl.
Qed.

Lemma fireAll_extends steps w : extends (objectUrls w) (objectUrls (fireAll steps w)).
Proof.
  revert w. induction steps as [|[env t] steps IH]; intros w.
  - apply extends_refl.
  - unfold fireAll. cbn [fold_left fst snd].
    eapply extends_trans; [apply fire_extends | apply IH].
Qed.

(** X21: no handler ever revokes an object URL: whatever triggers run, in
    any state and with any answers, every URL that stood for a blob still
    stands for the same blob afterwards; in particular after a reset the
    URLs of the discarded session are still registered. *)
Theorem object_urls_are_never_revoked (steps : list (Env * Trigger)) (w : World)
  (url : ObjectURL) (b : Blob) :
  resolveObjectURL w url = Some b ->
  resolveObjectURL (fireAll steps w) url = Some b
  /\ (forall env, resolveObjectURL (fire env Reset (fireAll steps w)) url = Some b).
Proof.
  intros H. unfold resolveObjectURL in *. split.
  - apply (extends_nth_error _ _ _ _ (fireAll_extends steps w) H).
  - intros env. apply (extends_nth_error (objectUrls w)).
    + eapply extends_trans; [apply fireAll_extends | apply fire_extends].
    + exact H.
Qed.

Lemma completeSession_dubbed :
  resolveObjectURL completeSession 1%nat
  = Some (OfParts (wavLayout [0; 0; 0]) "audio/wav").
Proof. vm_compute. reflexivity. Qed.

Lemma object_urls_are_never_revoked_witness :
  dubbedAudioUrl (songData completeSession) = Some 1%nat
  /\ dubbedAudioUrl (songData (fireAll [(Sample.failing, Reset)] completeSession)) = None
  /\ resolveObjectURL (fireAll [(Sample.failing, Reset)] completeSession) 1%nat
     = Some (OfParts (wavLayout [0; 0; 0]) "audio/wav").
Proof.
  split; [reflexivity | split; [reflexivity|]].
  exact (proj1 (object_urls_are_never_revoked [(Sample.failing, Reset)] completeSession
                  1%nat (OfParts (wavLayout [0; 0; 0]) "audio/wav")
                  completeSession_dubbed)).
Defined.

Lemma analyzeAudio_calls env b64 mime w :
  calls (snd (analyzeAudio env b64 mime w)) = calls w
  \/ exists req, calls (snd (analyzeAudio env b64 mime w)) = (calls w ++ [req])%list.
Proof.
  destruct (truthy (API_KEY env)) eqn:Hkey.
  - right. exists (AnalyzeRequest mime b64). rewrite (analyzeAudio_run _ _ _ _ Hkey).
    destruct (analysisOutcome env _); reflexivity.
  - left. rewrite (analyzeAudio_unconfigured _ _ _ _ Hkey). reflexivity.
Qed.

Lemma translateLyrics_calls env l t o b w :
  calls (snd (translateLyrics env l t o b w)) = calls w
  \/ exists req, calls (snd (translateLyrics env l t o b w)) = (calls w ++ [req])%list.
Proof.
  destruct (truthy (API_KEY env)) eqn:Hkey.
  - right. exists (TranslateRequest l t o b). rewrite (translateLyrics_run _ _ _ _ _ _ Hkey).
    destruct (translationOutcome env _); reflexivity.
  - left. rewrite (translateLyrics_unconfigured _ _ _ _ _ _ Hkey). reflexivity.
Qed.

Lemma generateDubbedAudio_calls env l g t w :
  calls (snd (generateDubbedAudio env l g t w)) = calls w
  \/ exists req, calls (snd (generateDubbedAudio env l g t w)) = (calls w ++ [req])%list.
Proof.
  destruct (truthy (API_KEY env)) eqn:Hkey.
  2:{ left. rewrite (generateDubbedAudio_unconfigured _ _ _ _ _ Hkey). reflexivity. }
  right. exists (speechRequest l g).
  destruct (generateContent env (speechRequest l g)) as [response|msg] eqn:Hresp.
  - rewrite (generateDubbedAudio_answered _ _ _ _ _ _ Hkey Hresp). unfold try_catch.
    match goal with
    | |- context [speechOutcome env response ?w1] =>
        pose proof (speechOutcome_calls env response w1) as Hc;
        destruct (speechOutcome env response w1) as [[url|e] w2]
    end; exact Hc.
  - rewrite (generateDubbedAudio_unanswered _ _ _ _ _ _ Hkey Hresp). reflexivity.
Qed.

(** X22: one trigger sends at most one request to the remote service, and
    selecting a file, choosing a language and resetting send none. *)
Theorem at_most_one_request_per_trigger (env : Env) (t : Trigger) (w : World) :
  (calls (fire env t w) = calls w
   \/ exists req, calls (fire env t w) = (calls w ++ [req])%list)
  /\ (match t with
      | SelectFile _ | SelectTargetLanguage _ | Reset => calls (fire env t w) = calls w
      | _ => True
      end).
Proof.
  unfold fire. split.
  - destruct t; cbn [handler].
    + left. destruct files0 as [f|]; [|reflexivity].
      unfold handleFileUpload. destruct (size f >? 10 * 1024 * 1024)%Z; reflexivity.
    + destruct (file (songData w)) as [f|] eqn:Hf.
      * rewrite (startAnalysis_as_settle _ _ _ Hf).
        rewrite (proj1 (startAnalysis_settle_logs _ _)).
        unfold analysisAttempt, bind.
        destruct (fileToGenerativePart env f _) as [[b64|e] w2] eqn:Hread.
        -- pose proof (fileToGenerativePart_calls env f (snd (setState ANALYZING w))) as Hc.
           rewrite Hread in Hc. unfold sameCalls in Hc. cbn [snd setState calls] in Hc.
           destruct (analyzeAudio_calls env b64 (type f) w2) as [H|[req H]];
             rewrite Hc in H; [left | right; exists req]; exact H.
        -- left.
           pose proof (fileToGenerativePart_calls env f (snd (setState ANALYZING w))) as Hc.
           rewrite Hread in Hc. exact Hc.
      * left. rewrite (startAnalysis_noop _ _ Hf). reflexivity.
    + left. reflexivity.
    + destruct (analysis (songData w)) as [a|] eqn:Ha.
      * rewrite (handleTranslate_as_settle _ _ _ Ha).
        rewrite (proj1 (handleTranslate_settle_logs _ _)).
        exact (translateLyrics_calls env _ _ _ _ (snd (setState ANALYZING w))).
      * left. rewrite (handleTranslate_noop _ _ Ha). reflexivity.
    + assert (Hcases : (analysis (songData w) = None \/ translations (songData w) = [])
                       \/ exists a, analysis (songData w) = Some a
                                    /\ translations (songData w) <> []).
      { destruct (analysis (songData w)) as [a|]; [|left; left; reflexivity].
        destruct (translations (songData w)); [left; right; reflexivity|].
        right. exists a. split; [reflexivity | discriminate]. }
      destruct Hcases as [Hno|(a & Ha & Ht)].
      * left. rewrite (handleDubbing_noop _ _ Hno). reflexivity.
      * rewrite (handleDubbing_as_settle _ _ _ Ha Ht).
        rewrite (proj1 (handleDubbing_settle_logs _ _)).
        exact (generateDubbedAudio_calls env _ _ _
                 (snd ((setIsDubbingLoading true ;; setError None) w))).
    + left. reflexivity.
  - destruct t; cbn [handler]; trivial.
    destruct files0 as [f|]; [|reflexivity].
    unfold handleFileUpload. destruct (size f >? 10 * 1024 * 1024)%Z; reflexivity.
Qed.

(** ** Dead ends and overlapping triggers *)

(** X23: an empty translation is accepted like any other: the state
    becomes [DUBBING]; there the synthesis trigger does nothing at all,
    whatever the service would answer, and the only other control on the
    page is the reset. *)
Theorem empty_translation_dead_end (w : World) :
  state w = DUBBING ->
  translations (songData w) = [] ->
  (forall env, fire env StartSynthesis w = w)
  /\ (forall t, enabled w t = true -> t = StartSynthesis \/ t = Reset).
Proof.
  intros Hst Htr. split.
  - intros env. unfold fire. cbn [handler].
    rewrite handleDubbing_noop by (right; exact Htr). reflexivity.
  - intros t Hen. destruct t; cbn [enabled] in Hen; rewrite Hst in Hen;
      first [discriminate | left; reflexivity | right; reflexivity].
Qed.

Lemma empty_translation_dead_end_witness :
  reachable emptyDubbingSession
  /\ state emptyDubbingSession = DUBBING
  /\ fire (Sample.answering Sample.audioPart) StartSynthesis emptyDubbingSession
     = emptyDubbingSession.
Proof.
  split; [|split; [reflexivity|]].
  - unfold emptyDubbingSession. apply reachable_fire; [|reflexivity].
    apply analysedSession_reachable.
  - apply (proj1 (empty_translation_dead_end emptyDubbingSession eq_refl eq_refl)).
Defined.

(** X24: a reset does not cancel an outstanding translation.  While
    [translateLyrics] is awaited the state is [ANALYZING], so the reset
    control is on the page; if it is used, the rest of [handleTranslate]
    still runs when the call settles: the translated lines are stored in
    the fresh session and the state becomes [DUBBING], with no file and no
    analysis, where the synthesis trigger does nothing. *)
Theorem reset_during_translation (env : Env) (w : World) (a : AnalysisResult)
  (t : list TranslatedLine) :
  analysis (songData w) = Some a ->
  fst (translateLyrics env (lyrics a) (targetLanguage (songData w)) (language a)
         (bpm a) (snd (setState ANALYZING w))) = Ok t ->
  let pending :=
    snd (translateLyrics env (lyrics a) (targetLanguage (songData w)) (language a)
           (bpm a) (snd (setState ANALYZING w))) in
  let late := snd (handleTranslate_settle (Ok t) (snd (resetApp pending))) in
  handleTranslate env w = handleTranslate_settle (Ok t) pending
  /\ state pending = ANALYZING
  /\ enabled pending Reset = true
  /\ state late = DUBBING
  /\ translations (songData late) = t
  /\ file (songData late) = None
  /\ analysis (songData late) = None
  /\ (forall env', fire env' StartSynthesis late = late).
Proof.
  intros Ha Hok pending late.
  destruct (translateLyrics_app env (lyrics a) (targetLanguage (songData w))
              (language a) (bpm a) (snd (setState ANALYZING w)))
    as (Hs & _).
  fold pending in Hs. cbn [setState snd state] in Hs.
  split; [rewrite (handleTranslate_as_settle _ _ _ Ha), Hok; reflexivity|].
  split; [exact Hs|].
  split; [cbn [enabled]; rewrite Hs; reflexivity|].
  repeat split.
Qed.

Lemma reset_during_translation_witness :
  state (snd (handleTranslate_settle (Ok Sample.lines)
                (snd (resetApp
                        (snd (translateLyrics (Sample.answering Sample.audioPart)
                                ["hello"; "world"] "Spanish" "English" 120
                                (snd (setState ANALYZING analysedSession))))))))
  = DUBBING
  /\ analysis
       (songData
          (snd (handleTranslate_settle (Ok Sample.lines)
                  (snd (resetApp
                          (snd (translateLyrics (Sample.answering Sample.audioPart)
                                  ["hello"; "world"] "Spanish" "English" 120
                                  (snd (setState ANALYZING analysedSession)))))))))
     = None.
Proof.
  destruct (reset_during_translation (Sample.answering Sample.audioPart) analysedSession
              Sample.result Sample.lines) as (_ & _ & _ & Hs & _ & _ & Ha & _).
  - reflexivity.
  - reflexivity.
  - split; [exact Hs | exact Ha].
Defined.

(** X25: a reset does not cancel an outstanding synthesis either.  While
    [generateDubbedAudio] is awaited in [DUBBING] the reset control is on
    the page; if it is used, the rest of [handleDubbing] still runs when
    the call settles: the fresh session gets the dubbed-audio URL and the
    state [COMPLETE], with no file, no analysis and no translated line, and
    the loading flag goes off. *)
Theorem reset_during_synthesis (env : Env) (w : World) (a : AnalysisResult)
  (url : ObjectURL) :
  state w = DUBBING ->
  analysis (songData w) = Some a ->
  translations (songData w) <> [] ->
  fst (generateDubbedAudio env (translations (songData w)) (gender a)
         (targetLanguage (songData w))
         (snd ((setIsDubbingLoading true ;; setError None) w))) = Ok url ->
  let pending :=
    snd (generateDubbedAudio env (translations (songData w)) (gender a)
           (targetLanguage (songData w))
           (snd ((setIsDubbingLoading true ;; setError None) w))) in
  let late := snd (handleDubbing_settle (Ok url) (snd (resetApp pending))) in
  handleDubbing env w = handleDubbing_settle (Ok url) pending
  /\ isDubbingLoading pending = true
  /\ enabled pending Reset = true
  /\ state late = COMPLETE
  /\ dubbedAudioUrl (songData late) = Some url
  /\ file (songData late) = None
  /\ analysis (songData late) = None
  /\ translations (songData late) = []
  /\ isDubbingLoading late = false.
Proof.
  intros Hst Ha Ht Hok pending late.
  destruct (generateDubbedAudio_app env (translations (songData w)) (gender a)
              (targetLanguage (songData w))
              (snd ((setIsDubbingLoading true ;; setError None) w)))
    as (Hs & _ & _ & Hl & _).
  fold pending in Hs, Hl.
  cbn [bind setIsDubbingLoading setError fst snd state isDubbingLoading] in Hs, Hl.
  split; [rewrite (handleDubbing_as_settle _ _ _ Ha Ht), Hok; reflexivity|].
  split; [exact Hl|].
  split; [cbn [enabled]; rewrite Hs, Hst; reflexivity|].
  repeat split.
Qed.

Lemma reset_during_synthesis_witness :
  state (snd (handleDubbing_settle (Ok 1%nat)
                (snd (resetApp
                        (snd (generateDubbedAudio (Sample.answering Sample.audioPart)
                                Sample.lines "FEMALE" "Spanish"
                                (snd ((setIsDubbingLoading true ;; setError None)
                                        dubbingSession))))))))
  = COMPLETE.
Proof.
  destruct (reset_during_synthesis (Sample.answering Sample.audioPart) dubbingSession
              Sample.result 1%nat) as (_ & _ & _ & Hs & _).
  - reflexivity.
  - reflexivity.
  - discriminate.
  - reflexivity.
  - exact Hs.
Defined.
